(** * The execution-and-repair loop of [src/Ai-agent.ts]

    A shallow embedding of the agent's TypeScript source: the text
    utilities ([stripCodeFences], [isFileCreationCommand]), the Runtime
    Validator ([runFileAndFixIfError]), the Plan Executor ([executePlan])
    and the Session Driver ([main]), followed by the properties the
    specification states about them.

    Modelling conventions.
    - A JavaScript string is a sequence of UTF-16 code units.  The model
      keeps the code units below 256 (Latin-1), one [ascii] each, so a
      JavaScript string is a Rocq [string].
    - The external collaborators (subprocesses, the Gemini service, the
      operator at the prompt) are arbitrary functions over a hidden
      environment, bundled in [Collaborators]; every theorem holds for all
      of them.  A subprocess may change the file system in any way; the
      prompts of [inquirer] always come back with an answer.
    - The file system is a finite map from the resolved paths the program
      passes to it to nodes (directory, or file with its content); its
      operations fail where a path is of the wrong kind, not for lack of
      permissions.
    - [World] holds everything a run can touch, and [events], the list of
      the calls that left the process, which exists only to state
      properties such as "no subprocess was spawned".
    - [console.log] / [console.error] output does not influence control
      flow and is not modelled; the final report of [main] is its
      [Outcome].
    - The repair recursion of [runFileAndFixIfError] is unbounded in the
      source; the model takes a fuel argument and returns [OutOfFuel] when
      it is exhausted. *)

From stdpp Require Import gmap strings list.
From Stdlib Require Import Ascii String Bool Arith Lia.

Open Scope string_scope.

(** ** JavaScript string primitives *)

Module JS.

(** Code units that [String.prototype.trim] removes (WhiteSpace and
    LineTerminator of ECMA-262, restricted to code units below 256):
    TAB, LF, VT, FF, CR, SPACE, NBSP. *)
Definition isWhiteSpace (c : ascii) : bool :=
  let n := nat_of_ascii c in
  ((n =? 9) || (n =? 10) || (n =? 11) || (n =? 12) || (n =? 13)
   || (n =? 32) || (n =? 160))%nat.

(** The class [[a-z]] under the [i] flag: exactly the ASCII letters. *)
Definition isAsciiLetter (c : ascii) : bool :=
  let n := nat_of_ascii c in
  (((65 <=? n) && (n <=? 90)) || ((97 <=? n) && (n <=? 122)))%nat.

(** [toLowerCase] on one Latin-1 code unit: A-Z, and the accented capitals
    192-222 except the multiplication sign 215, move up by 32. *)
Definition toLowerChar (c : ascii) : ascii :=
  let n := nat_of_ascii c in
  if (((65 <=? n) && (n <=? 90))
      || ((192 <=? n) && (n <=? 222) && negb (n =? 215)))%nat
  then ascii_of_nat (n + 32) else c.

Fixpoint toLowerCase (s : string) : string :=
  match s with
  | EmptyString => EmptyString
  | String c s' => String (toLowerChar c) (toLowerCase s')
  end.

Definition isEmpty (s : string) : bool :=
  match s with EmptyString => true | _ => false end.

(** [s.startsWith(p)] *)
Fixpoint startsWith (p s : string) : bool :=
  match p, s with
  | EmptyString, _ => true
  | String a p', String b s' => Ascii.eqb a b && startsWith p' s'
  | String _ _, EmptyString => false
  end.

(** [s.endsWith(p)]: some suffix of [s] is [p]. *)
Fixpoint endsWith (p s : string) : bool :=
  String.eqb s p
  || match s with
     | EmptyString => false
     | String _ s' => endsWith p s'
     end.

(** [s.includes(p)] *)
Fixpoint includes (p s : string) : bool :=
  startsWith p s
  || match s with
     | EmptyString => false
     | String _ s' => includes p s'
     end.

(** [s.slice(n)] for [n >= 0]. *)
Fixpoint slice (n : nat) (s : string) : string :=
  match n, s with
  | O, _ => s
  | S n', String _ s' => slice n' s'
  | S _, EmptyString => EmptyString
  end.

Fixpoint trimStart (s : string) : string :=
  match s with
  | EmptyString => EmptyString
  | String c s' => if isWhiteSpace c then trimStart s' else s
  end.

Fixpoint trimEnd (s : string) : string :=
  match s with
  | EmptyString => EmptyString
  | String c s' =>
      match trimEnd s' with
      | EmptyString => if isWhiteSpace c then EmptyString else String c EmptyString
      | r => String c r
      end
  end.

(** [s.trim()] *)
Definition trim (s : string) : string := trimEnd (trimStart s).

(** [s.split(sep)] for a one-character separator: never the empty list. *)
Fixpoint split (sep : ascii) (s : string) : list string :=
  match s with
  | EmptyString => [EmptyString]
  | String c s' =>
      let r := split sep s' in
      if Ascii.eqb c sep then EmptyString :: r
      else match r with
           | h :: t => String c h :: t
           | [] => [String c EmptyString]
           end
  end.

(** [arr.pop()!] on the result of a [split]: its last element. *)
Definition pop (l : list string) : string := List.last l EmptyString.

(** [arr.includes(x)] on an array of strings. *)
Definition arrayIncludes (x : string) (l : list string) : bool :=
  existsb (String.eqb x) l.

(** [arr.join(sep)] *)
Fixpoint join (sep : string) (l : list string) : string :=
  match l with
  | [] => EmptyString
  | [x] => x
  | x :: r => x +:+ sep +:+ join sep r
  end.

End JS.

Import JS.

(** ** Text utilities of the agent *)

Definition LF : ascii := "010"%char.
Definition SPACE : ascii := " "%char.
Definition SLASH : ascii := "/"%char.

Definition fence : string := "```".

(** The greedy run [[a-z]*] (flag [i]) at the start of [s] is dropped. *)
Fixpoint dropLetters (s : string) : string :=
  match s with
  | String c s' => if isAsciiLetter c then dropLetters s' else s
  | EmptyString => EmptyString
  end.

(** The optional line feed of [\n?]. *)
Definition dropNewline (s : string) : string :=
  match s with
  | String c s' => if Ascii.eqb c LF then s' else s
  | EmptyString => EmptyString
  end.

(** [code.replace(/^```[a-z]*\n?/i, "")]: the pattern is anchored at the
    start of the input (no [m] flag) and matches as soon as the three
    backticks are there. *)
Definition replaceOpeningFence (code : string) : string :=
  if startsWith fence code then dropNewline (dropLetters (slice 3 code))
  else code.

(** [s] without its suffix [p], when it has one. *)
Fixpoint dropSuffix (p s : string) : string :=
  if String.eqb s p then EmptyString
  else match s with
       | EmptyString => EmptyString
       | String c s' => String c (dropSuffix p s')
       end.

(** [code.replace(/```$/, "")]: without the [m] flag [$] is the end of the
    input, so the only possible match is the last three code units. *)
Definition replaceClosingFence (code : string) : string :=
  dropSuffix fence code.

(** [stripCodeFences], lines 23-28. *)
Definition stripCodeFences (code : string) : string :=
  trim (replaceClosingFence (replaceOpeningFence code)).

Definition fileExtensions : list string :=
  ["js"; "ts"; "json"; "jsx"; "tsx"; "py"; "sh"; "html"; "css"].

(** [/\.(js|ts|json|jsx|tsx|py|sh|html|css)$/.test(cmd)] *)
Definition hasFileExtension (cmd : string) : bool :=
  existsb (fun ext => endsWith ("." +:+ ext) cmd) fileExtensions.

(** [isFileCreationCommand], lines 31-37. *)
Definition isFileCreationCommand (cmd : string) : bool :=
  hasFileExtension cmd || includes "touch" cmd || includes ">" cmd.

(** [isLongRunningCommand], lines 127-130. *)
Definition longRunningCommands : list string :=
  ["npm run dev"; "yarn dev"; "pnpm dev"].

Definition isLongRunningCommand (cmd : string) : bool :=
  existsb (fun longCmd => includes longCmd cmd) longRunningCommands.

(** The first guard of the [forEach] callback, lines 138-145. *)
Definition isSkippedLine (cmd : string) : bool :=
  isEmpty cmd || startsWith "#" cmd || startsWith fence cmd
  || String.eqb (toLowerCase cmd) "bash".

(** Lines 132-153: the plan is split on line feeds, every line is trimmed,
    and the lines that pass both guards are pushed, in order. *)
Definition candidateCommands (plan : string) : list string :=
  List.filter (fun cmd => negb (isSkippedLine cmd) && negb (isLongRunningCommand cmd))
    (List.map trim (split LF plan)).

(** What the loop body of lines 155-207 does with a candidate that is not
    in the history: the three branches, in the order of the source. *)
Inductive Dispatch : Type :=
| DirectoryChange (targetDir : string)
| FileCreation (filePath : string)
| ShellCommand (cmd : string).

Definition dispatch (cmd : string) : Dispatch :=
  if startsWith "cd " cmd then DirectoryChange (trim (slice 3 cmd))
  else if isFileCreationCommand cmd then FileCreation (pop (split SPACE cmd))
  else ShellCommand cmd.

(** The fate of one raw plan line: dropped by the first guard, dropped as
    long-running, or dispatched. *)
Inductive LineClass : Type :=
| Skip
| LongRunning
| Dispatched (d : Dispatch).

Definition classify (line : string) : LineClass :=
  let cmd := trim line in
  if isSkippedLine cmd then Skip
  else if isLongRunningCommand cmd then LongRunning
  else Dispatched (dispatch cmd).

(** ** POSIX [path] of Node.js

    [path.resolve] and [path.dirname] are library code; they are modelled
    after the POSIX implementation of Node ([lib/path.js]), on the
    [/]-separated segments of their arguments. *)

Module Path.

Definition isAbsolute (p : string) : bool := startsWith "/" p.

(** One step of [normalizeString]: empty and [.] segments vanish, [..]
    removes the segment before it (or is kept when the path may climb
    above its start), any other segment is appended. *)
Definition normalizeStep (allowAboveRoot : bool) (stack : list string) (seg : string)
  : list string :=
  if String.eqb seg "" || String.eqb seg "." then stack
  else if String.eqb seg ".." then
    match List.rev stack with
    | top :: _ =>
        if String.eqb top ".." then
          (if allowAboveRoot then stack ++ [seg] else stack)
        else List.removelast stack
    | [] => if allowAboveRoot then stack ++ [seg] else stack
    end
  else stack ++ [seg].

Definition normalizeSegments (allowAboveRoot : bool) (segs : list string) : list string :=
  List.fold_left (normalizeStep allowAboveRoot) segs [].

(** [path.resolve(from, to)]: arguments are taken from the right until an
    absolute one is found, the process working directory coming last. *)
Definition resolve (cwd from to : string) : string :=
  let parts :=
    if isAbsolute to then [to]
    else if isAbsolute from then [from; to]
    else [cwd; from; to] in
  let resolvedAbsolute := existsb isAbsolute parts in
  let segs :=
    normalizeSegments (negb resolvedAbsolute) (List.flat_map (split SLASH) parts) in
  if resolvedAbsolute then "/" +:+ join "/" segs
  else if isEmpty (join "/" segs) then "." else join "/" segs.

Fixpoint revAppend (s acc : string) : string :=
  match s with
  | EmptyString => acc
  | String c s' => revAppend s' (String c acc)
  end.

Fixpoint dropSlashes (s : string) : string :=
  match s with
  | String c s' => if Ascii.eqb c SLASH then dropSlashes s' else s
  | EmptyString => EmptyString
  end.

Fixpoint dropNonSlashes (s : string) : string :=
  match s with
  | String c s' => if Ascii.eqb c SLASH then s else dropNonSlashes s'
  | EmptyString => EmptyString
  end.

(** [path.dirname(path)]: scanning from the end, and never looking at the
    first character, trailing slashes and then the last component are
    passed over; the path is cut at the slash found there. *)
Definition dirname (path : string) : string :=
  match path with
  | EmptyString => "."
  | String c0 rest =>
      let hasRoot := Ascii.eqb c0 SLASH in
      match dropNonSlashes (dropSlashes (revAppend rest EmptyString)) with
      | EmptyString => if hasRoot then "/" else "."
      | String _ before =>
          if hasRoot && isEmpty before then "//"
          else String c0 (revAppend before EmptyString)
      end
  end.

(** The proper ancestors of [p], nearest first. *)
Fixpoint ancestors (n : nat) (p : string) : list string :=
  match n with
  | O => []
  | S n' =>
      let d := dirname p in
      if String.eqb d p then [] else d :: ancestors n' d
  end.

(** An absolute path in the form [path.resolve] returns. *)
Definition canonical (p : string) : Prop :=
  p = "/" +:+ join "/" (normalizeSegments false (split SLASH p)).

(** A single path segment that names an entry. *)
Definition isSimpleName (name : string) : bool :=
  negb (includes "/" name) && negb (String.eqb name "")
  && negb (String.eqb name ".") && negb (String.eqb name "..").

(** [dir/name] *)
Definition child (dir name : string) : string :=
  if String.eqb dir "/" then "/" +:+ name else dir +:+ "/" +:+ name.

End Path.

(** ** The environment: file system, subprocesses, oracle, operator *)

(** The file system maps paths to nodes.  Its keys are resolved absolute
    paths, the form in which the program passes every path to [fs]
    (lines 163 and 184); another spelling of a path, relative or with a
    trailing slash, is another key, so the operations below say what the
    real ones do on resolved paths only. *)
Inductive FsNode : Type :=
| Dir
| File (content : string).

Definition existsSync (p : string) (fs : gmap string FsNode) : bool :=
  match fs !! p with Some _ => true | None => false end.

Definition isDirectory (p : string) (fs : gmap string FsNode) : bool :=
  match fs !! p with Some Dir => true | _ => false end.

Definition isFile (p : string) (fs : gmap string FsNode) : bool :=
  match fs !! p with Some (File _) => true | _ => false end.

(** A regular file sits at [p] or at one of its ancestors. *)
Definition blockedByFile (p : string) (fs : gmap string FsNode) : bool :=
  existsb (fun q => isFile q fs) (p :: Path.ancestors (String.length p) p).

(** [fs.promises.mkdir(p, { recursive: true })]: rejects when [p] or one of
    its ancestors is a regular file, otherwise [p] and its ancestors are
    directories afterwards. *)
Definition mkdirRecursive (p : string) (fs : gmap string FsNode)
  : option (gmap string FsNode) :=
  if blockedByFile p fs then None
  else Some (List.fold_right (fun q acc => <[q := Dir]> acc) fs
               (p :: Path.ancestors (String.length p) p)).

(** [fs.promises.writeFile(p, content, "utf-8")]: rejects on a directory
    and when the parent directory is missing; replaces the whole file. *)
Definition writeFileFs (p content : string) (fs : gmap string FsNode)
  : option (gmap string FsNode) :=
  if isDirectory p fs then None
  else if isDirectory (Path.dirname p) fs then Some (<[p := File content]> fs)
  else None.

(** [fs.promises.readFile(p, "utf-8")] *)
Definition readFileFs (p : string) (fs : gmap string FsNode) : option string :=
  match fs !! p with
  | Some (File content) => Some content
  | _ => None
  end.

(** The outcome of [execAsync]: resolved with the captured streams, or
    rejected with an error carrying [stderr] and [message]. *)
Inductive ExecResult : Type :=
| ExecOk (stdout stderr : string)
| ExecFail (stderr message : string).

(** The three prompts sent to the Gemini service.  The prompt text is a
    template filled with exactly these fields. *)
Inductive OracleRequest : Type :=
| GenerateFile (filePath task : string)
| FixFile (code error task : string)
| RefinePlan (currentDir : string) (projectRoot : option string)
    (executedCommands : list string) (task : string).

(** [generateContent] rejects, or resolves with a response whose [text]
    may be undefined. *)
Inductive OracleResult : Type :=
| OracleRejected (reason : string)
| OracleResponse (text : option string).

Record Collaborators : Type := {
  Env : Type;
  (** a subprocess: command, working directory, file system before *)
  spawn : string -> string -> gmap string FsNode -> Env
          -> ExecResult * gmap string FsNode * Env;
  gemini : OracleRequest -> Env -> OracleResult * Env;
  answerTask : Env -> string * Env;
  answerConfirm : string -> Env -> bool * Env;
  answerFeedback : Env -> string * Env
}.

Inductive Prompt : Type :=
| AskTask
| AskConfirm (plan : string)
| AskFeedback.

(** The calls that leave the process, in the order they are made. *)
Inductive Event : Type :=
| EvExec (cmd : string) (cwd : option string)
| EvOracle (req : OracleRequest)
| EvPrompt (p : Prompt).

(** [interface ExecutionState], lines 16-20. *)
Record ExecutionState : Type := {
  currentDir : string;
  executedCommands : list string;
  projectRoot : option string
}.

Inductive Error : Type :=
| FsError (syscall path : string)
| OracleError (reason : string)
| NoResponseText.

(** ** The program *)

Section Agent.

Context {C : Collaborators}.

(** Everything a run can touch.  The program has a single
    [ExecutionState] object, created by [main] and passed by reference to
    [getRefinedPlan] and [executePlan], which mutate it in place; [state]
    is that object. *)
Record World : Type := {
  state : ExecutionState;
  fs : gmap string FsNode;
  processCwd : string;
  env : Env C;
  events : list Event
}.

Inductive Res (A : Type) : Type :=
| Ok (a : A) (w : World)
| Throw (e : Error) (w : World)
| OutOfFuel (w : World).

Arguments Ok {A} a w.
Arguments Throw {A} e w.
Arguments OutOfFuel {A} w.

Definition M (A : Type) : Type := World -> Res A.

Definition ret {A} (a : A) : M A := fun w => Ok a w.

Definition bind {A B} (m : M A) (k : A -> M B) : M B :=
  fun w =>
    match m w with
    | Ok a w' => k a w'
    | Throw e w' => Throw e w'
    | OutOfFuel w' => OutOfFuel w'
    end.

Definition throw {A} (e : Error) : M A := fun w => Throw e w.

(** [try { m } catch (err) { h err }]: what [m] did before throwing stays
    done. *)
Definition tryCatch {A} (m : M A) (h : Error -> M A) : M A :=
  fun w =>
    match m w with
    | Throw e w' => h e w'
    | r => r
    end.

Notation "x <- m ;; k" := (bind m (fun x => k))
  (at level 100, m at next level, right associativity).
Notation "m ;;; k" := (bind m (fun _ => k))
  (at level 100, right associativity).

Definition worldOf {A} (r : Res A) : World :=
  match r with Ok _ w | Throw _ w | OutOfFuel w => w end.

(** *** Primitive operations *)

Definition getState : M ExecutionState := fun w => Ok (state w) w.

Definition setState (st : ExecutionState) : M unit :=
  fun w => Ok tt {| state := st; fs := fs w; processCwd := processCwd w;
                    env := env w; events := events w |}.

(** [state.currentDir = newPath] *)
Definition setCurrentDir (newPath : string) : M unit :=
  st <- getState ;;
  setState {| currentDir := newPath;
              executedCommands := executedCommands st;
              projectRoot := projectRoot st |}.

(** [state.executedCommands.push(cmd)] *)
Definition pushExecuted (cmd : string) : M unit :=
  st <- getState ;;
  setState {| currentDir := currentDir st;
              executedCommands := executedCommands st ++ [cmd];
              projectRoot := projectRoot st |}.

(** [process.cwd()] *)
Definition cwd : M string := fun w => Ok (processCwd w) w.

(** [process.chdir(p)]: throws unless [p] is a directory. *)
Definition chdir (p : string) : M unit :=
  fun w =>
    if isDirectory p (fs w)
    then Ok tt {| state := state w; fs := fs w; processCwd := p;
                  env := env w; events := events w |}
    else Throw (FsError "chdir" p) w.

Definition fsExists (p : string) : M bool := fun w => Ok (existsSync p (fs w)) w.

Definition setFs (fs' : gmap string FsNode) : M unit :=
  fun w => Ok tt {| state := state w; fs := fs'; processCwd := processCwd w;
                    env := env w; events := events w |}.

Definition mkdir (p : string) : M unit :=
  fun w =>
    match mkdirRecursive p (fs w) with
    | Some fs' => setFs fs' w
    | None => Throw (FsError "mkdir" p) w
    end.

Definition writeFile (p content : string) : M unit :=
  fun w =>
    match writeFileFs p content (fs w) with
    | Some fs' => setFs fs' w
    | None => Throw (FsError "open" p) w
    end.

Definition readFile (p : string) : M string :=
  fun w =>
    match readFileFs p (fs w) with
    | Some content => Ok content w
    | None => Throw (FsError "open" p) w
    end.

(** [execAsync(cmd, { cwd })]; without the option the child inherits the
    working directory of the process.  The promise always settles; a
    rejection is the [ExecFail] result, examined by the caller's
    [catch].  A subprocess that never exits has no counterpart here: no
    timeout is passed (lines 69 and 194), so the real call would wait for
    it; the model is of runs in which every subprocess exits. *)
Definition execAsync (cmd : string) (cwdOption : option string) : M ExecResult :=
  fun w =>
    let dir := match cwdOption with Some d => d | None => processCwd w end in
    let '(r, fs', env') := spawn C cmd dir (fs w) (env w) in
    Ok r {| state := state w; fs := fs'; processCwd := processCwd w;
            env := env'; events := events w ++ [EvExec cmd cwdOption] |}.

(** [(await genAI.models.generateContent(...)).text!.trim()]: rejects with
    the service, and throws a [TypeError] when there is no text. *)
Definition generateText (req : OracleRequest) : M string :=
  fun w =>
    let '(r, env') := gemini C req (env w) in
    let w' := {| state := state w; fs := fs w; processCwd := processCwd w;
                 env := env'; events := events w ++ [EvOracle req] |} in
    match r with
    | OracleRejected reason => Throw (OracleError reason) w'
    | OracleResponse None => Throw NoResponseText w'
    | OracleResponse (Some text) => Ok (trim text) w'
    end.

Definition promptWith {A} (p : Prompt) (answer : Env C -> A * Env C) : M A :=
  fun w =>
    let '(a, env') := answer (env w) in
    Ok a {| state := state w; fs := fs w; processCwd := processCwd w;
            env := env'; events := events w ++ [EvPrompt p] |}.

(** *** Artifact Generator and Runtime Validator *)

(** [generateFileContent], lines 40-56. *)
Definition generateFileContent (filePath task : string) : M string :=
  rawCode <- generateText (GenerateFile filePath task) ;;
  ret (stripCodeFences rawCode).

(** [writeCodeToFile], lines 59-63. *)
Definition writeCodeToFile (filePath code : string) : M unit :=
  mkdir (Path.dirname filePath) ;;;
  writeFile filePath code.

(** [error.stderr || error.message] *)
Definition diagnostic (stderr message : string) : string :=
  if isEmpty stderr then message else stderr.

(** The [catch] block of [runFileAndFixIfError], lines 72-94; [retry] is
    the recursive call of line 93. *)
Definition repairAndRetry (retry : M unit) (filePath task stderr message : string)
  : M unit :=
  code <- readFile filePath ;;
  fixedCodeRaw <- generateText (FixFile code (diagnostic stderr message) task) ;;
  let fixedCode := stripCodeFences fixedCodeRaw in
  writeCodeToFile filePath fixedCode ;;;
  retry.

(** [runFileAndFixIfError], lines 66-95.  One unit of fuel per run of the
    artifact. *)
Fixpoint runFileAndFixIfError (fuel : nat) (filePath task : string) : M unit :=
  match fuel with
  | O => fun w => OutOfFuel w
  | S fuel' =>
      r <- execAsync ("node " +:+ filePath) None ;;
      match r with
      | ExecOk _ _ => ret tt
      | ExecFail stderr message =>
          repairAndRetry (runFileAndFixIfError fuel' filePath task)
            filePath task stderr message
      end
  end.

(** *** Plan Executor *)

(** [getRefinedPlan], lines 98-119. *)
Definition getRefinedPlan (task : string) : M string :=
  st <- getState ;;
  text <- generateText
            (RefinePlan (currentDir st) (projectRoot st) (executedCommands st) task) ;;
  ret (stripCodeFences text).

(** How one turn of the [for] loop ends: [continue], or
    [return { success: false, newState: state }]. *)
Inductive LoopStep : Type :=
| Continue
| ReturnFailure.

(** Lines 161-180. *)
Definition changeDirectory (cmd targetDir : string) : M LoopStep :=
  st <- getState ;;
  here <- cwd ;;
  let newPath := Path.resolve here (currentDir st) targetDir in
  tryCatch
    (present <- fsExists newPath ;;
     (if negb present then mkdir newPath else ret tt) ;;;
     setCurrentDir newPath ;;;
     chdir newPath ;;;
     pushExecuted cmd ;;;
     ret Continue)
    (fun _ => ret ReturnFailure).

(** Lines 182-190. *)
Definition createFile (fuel : nat) (cmd filePath task : string) : M LoopStep :=
  st <- getState ;;
  here <- cwd ;;
  let fullPath := Path.resolve here (currentDir st) filePath in
  code <- generateFileContent fullPath task ;;
  writeCodeToFile fullPath code ;;;
  runFileAndFixIfError fuel fullPath task ;;;
  pushExecuted cmd ;;;
  ret Continue.

(** Lines 192-206. *)
Definition runShell (cmd : string) : M LoopStep :=
  st <- getState ;;
  r <- execAsync cmd (Some (currentDir st)) ;;
  match r with
  | ExecOk _ _ => pushExecuted cmd ;;; ret Continue
  | ExecFail _ _ => ret ReturnFailure
  end.

(** The body of the [for] loop, lines 156-206. *)
Definition handleCommand (fuel : nat) (cmd task : string) : M LoopStep :=
  st <- getState ;;
  if arrayIncludes cmd (executedCommands st) then ret Continue
  else match dispatch cmd with
       | DirectoryChange targetDir => changeDirectory cmd targetDir
       | FileCreation filePath => createFile fuel cmd filePath task
       | ShellCommand c => runShell c
       end.

(** The [for] loop and the final [return { success: true, ... }]; the
    result is the [success] field, [newState] being the shared [state]. *)
Fixpoint executeCommands (fuel : nat) (commands : list string) (task : string) : M bool :=
  match commands with
  | [] => ret true
  | cmd :: rest =>
      step <- handleCommand fuel cmd task ;;
      match step with
      | Continue => executeCommands fuel rest task
      | ReturnFailure => ret false
      end
  end.

(** [executePlan], lines 122-210. *)
Definition executePlan (fuel : nat) (plan task : string) : M bool :=
  executeCommands fuel (candidateCommands plan) task.

(** *** Session Driver *)

(** How a run ends: the console report of [main], [process.exit(0)], or
    the handler of [main().catch]. *)
Inductive Outcome : Type :=
| Exited
| AbortedByUser
| AllDone
| MaximumAttemptsReached
| FatalError (err : Error).

Definition maxAttempts : nat := 3.

(** The [while (attempt < 3)] loop, lines 234-268.  [iterations] bounds the
    number of turns left; [main] starts the loop with [maxAttempts] of
    them, which the loop condition never lets run out. *)
Fixpoint sessionLoop (fuel iterations attempt : nat) (task : string) : M Outcome :=
  if (attempt <? maxAttempts)%nat then
    match iterations with
    | O => fun w => OutOfFuel w
    | S iterations' =>
        plan <- getRefinedPlan task ;;
        confirm <- promptWith (AskConfirm plan) (answerConfirm C plan) ;;
        if negb confirm then ret AbortedByUser
        else
          success <- executePlan fuel plan task ;;
          if success then ret AllDone
          else
            feedback <- promptWith AskFeedback (answerFeedback C) ;;
            sessionLoop fuel iterations' (attempt + 1) (task +:+ "
Error: " +:+ feedback)
    end
  else ret MaximumAttemptsReached.

(** Lines 214-224: the state is created and the task is asked for. *)
Definition sessionStart : M string :=
  here <- cwd ;;
  setState {| currentDir := here; executedCommands := []; projectRoot := None |} ;;;
  promptWith AskTask (answerTask C).

(** The body of [main], lines 213-269. *)
Definition mainBody (fuel : nat) : M Outcome :=
  rawTask <- sessionStart ;;
  if String.eqb (toLowerCase rawTask) "exit" then ret Exited
  else sessionLoop fuel maxAttempts 0 rawTask.

(** [main().catch((err) => console.error("Fatal error:", err))], line 271. *)
Definition main (fuel : nat) : M Outcome :=
  tryCatch (mainBody fuel) (fun err => ret (FatalError err)).

(** *** Vocabulary of the properties *)

(** One turn of the loop that ends in a failed attempt: a plan is obtained
    and confirmed, the Plan Executor returns [success = false], and the
    operator's feedback is appended to the task.  The result is the task
    and the world the next turn starts with; [None] when the turn goes
    any other way. *)
Definition failedAttempt (fuel : nat) (task : string) (w : World)
  : option (string * World) :=
  match getRefinedPlan task w with
  | Ok plan w1 =>
      match promptWith (AskConfirm plan) (answerConfirm C plan) w1 with
      | Ok true w2 =>
          match executePlan fuel plan task w2 with
          | Ok false w3 =>
              match promptWith AskFeedback (answerFeedback C) w3 with
              | Ok feedback w4 => Some (task +:+ "
Error: " +:+ feedback, w4)
              | _ => None
              end
          | _ => None
          end
      | _ => None
      end
  | _ => None
  end.

(** [k] failed attempts in a row. *)
Fixpoint failedAttempts (fuel k : nat) (task : string) (w : World)
  : option (string * World) :=
  match k with
  | O => Some (task, w)
  | S k' =>
      match failedAttempt fuel task w with
      | Some (task1, w1) => failedAttempts fuel k' task1 w1
      | None => None
      end
  end.

End Agent.

(** The history after the commands [cmds] have all been handled without
    an abort: each one that was not yet there is appended, once. *)
Fixpoint appendFresh (history cmds : list string) : list string :=
  match cmds with
  | [] => history
  | cmd :: rest =>
      if arrayIncludes cmd history then appendFresh history rest
      else appendFresh (history ++ [cmd]) rest
  end.

Definition isPlanningCall (e : Event) : bool :=
  match e with
  | EvOracle (RefinePlan _ _ _ _) => true
  | _ => false
  end.

(** The number of planning-oracle calls in a trace. *)
Definition planningCalls (trace : list Event) : nat :=
  List.length (List.filter isPlanningCall trace).




Arguments World C : clear implicits.
Arguments Res C A : clear implicits.
Arguments M C A : clear implicits.
Arguments Ok {C A} a w.
Arguments Throw {C A} e w.
Arguments OutOfFuel {C A} w.

(** *** Relations between the world before and after a computation *)

(** [m] relates the world it starts in to the world it stops in, however
    it stops. *)
Definition respects {C : Collaborators} (R : World C -> World C -> Prop)
  {A : Type} (m : M C A) : Prop :=
  forall w, R w (worldOf (m w)).

(** The execution state and the working directory of the process are the
    same in both worlds. *)
Definition sameState {C : Collaborators} (w w' : World C) : Prop :=
  state w' = state w /\ processCwd w' = processCwd w.

(** The trace of [w'] is the trace of [w] followed by events that all
    satisfy [P]. *)
Definition traceExt {C : Collaborators} (P : Event -> Prop) (w w' : World C) : Prop :=
  exists new, events w' = (events w ++ new)%list /\ Forall P new.

(** The current directory of the execution state is the same in both
    worlds. *)
Definition sameDir {C : Collaborators} (w w' : World C) : Prop :=
  currentDir (state w') = currentDir (state w).

Definition notPlanning (e : Event) : Prop := isPlanningCall e = false.

(** What a branch of the loop body does to the history: [Continue] after
    appending the command, anything else with the history as it was. *)
Definition historyStep {C : Collaborators} (cmd : string) (w : World C)
  (r : Res C LoopStep) : Prop :=
  match r with
  | Ok Continue w' =>
      executedCommands (state w') = (executedCommands (state w) ++ [cmd])%list
  | Ok ReturnFailure w' | Throw _ w' | OutOfFuel w' =>
      executedCommands (state w') = executedCommands (state w)
  end.

(** ** A scripted environment

    A concrete instance of [Collaborators], used to run the model: every
    collaborator answers with the next entry of its script.  Subprocesses
    of this environment leave the file system alone. *)

Record Script : Type := {
  execScript : list ExecResult;
  oracleScript : list OracleResult;
  taskScript : string;
  confirmScript : list bool;
  feedbackScript : list string
}.

Definition scriptedSpawn (cmd dir : string) (fs : gmap string FsNode) (s : Script)
  : ExecResult * gmap string FsNode * Script :=
  match execScript s with
  | r :: rest =>
      (r, fs, {| execScript := rest; oracleScript := oracleScript s;
                 taskScript := taskScript s; confirmScript := confirmScript s;
                 feedbackScript := feedbackScript s |})
  | [] => (ExecOk "" "", fs, s)
  end.

Definition scriptedGemini (req : OracleRequest) (s : Script) : OracleResult * Script :=
  match oracleScript s with
  | r :: rest =>
      (r, {| execScript := execScript s; oracleScript := rest;
             taskScript := taskScript s; confirmScript := confirmScript s;
             feedbackScript := feedbackScript s |})
  | [] => (OracleRejected "script exhausted", s)
  end.

Definition scriptedTask (s : Script) : string * Script := (taskScript s, s).

Definition scriptedConfirm (plan : string) (s : Script) : bool * Script :=
  match confirmScript s with
  | b :: rest =>
      (b, {| execScript := execScript s; oracleScript := oracleScript s;
             taskScript := taskScript s; confirmScript := rest;
             feedbackScript := feedbackScript s |})
  | [] => (false, s)
  end.

Definition scriptedFeedback (s : Script) : string * Script :=
  match feedbackScript s with
  | f :: rest =>
      (f, {| execScript := execScript s; oracleScript := oracleScript s;
             taskScript := taskScript s; confirmScript := confirmScript s;
             feedbackScript := rest |})
  | [] => ("", s)
  end.

Definition scripted : Collaborators := {|
  Env := Script;
  spawn := scriptedSpawn;
  gemini := scriptedGemini;
  answerTask := scriptedTask;
  answerConfirm := scriptedConfirm;
  answerFeedback := scriptedFeedback
|}.

(** A world of the scripted environment: the process sits in [/w], which
    exists, and nothing has happened yet. *)
Definition freshState (dir : string) : ExecutionState :=
  {| currentDir := dir; executedCommands := []; projectRoot := None |}.

Definition baseFs : gmap string FsNode := <["/w" := Dir]> (<["/" := Dir]> ∅).

Definition scriptedWorld (st : ExecutionState) (files : gmap string FsNode) (s : Script)
  : World scripted :=
  @Build_World scripted st files "/w" s [].

Definition script (execs : list ExecResult) (oracles : list OracleResult)
  (task : string) (confirms : list bool) (feedbacks : list string) : Script :=
  {| execScript := execs; oracleScript := oracles; taskScript := task;
     confirmScript := confirms; feedbackScript := feedbacks |}.

(** Worlds used to instantiate the theorems below. *)


(** The first subprocess succeeds, the second exits with status 1. *)
Definition abortWorld : World scripted :=
  scriptedWorld (freshState "/w") baseFs
    (script [ExecOk "" ""; ExecFail "" "Command failed: false"] [] "" [] []).

Definition threeCommands : string := "ls
false
echo hi".


(** [/w/app.js] holds a first version that fails; the oracle repairs it,
    fenced, and the second run succeeds. *)
Definition repairWorld : World scripted :=
  scriptedWorld (freshState "/w") (<["/w/app.js" := File "v1();"]> baseFs)
    (script [ExecFail "ReferenceError: v1 is not defined" "Command failed"; ExecOk "ok" ""]
       [OracleResponse (Some "```js
console.log('v2');
```")] "" [] []).

(** The oracle answers one generation request and the artifact runs. *)
Definition revisitWorld : World scripted :=
  scriptedWorld (freshState "/w") baseFs
    (script [ExecOk "" ""] [OracleResponse (Some "console.log(1);")] "" [] []).

(** Every plan is the single command [false], which fails; the operator
    confirms every plan and always has feedback. *)
Definition failingWorld : World scripted :=
  scriptedWorld (freshState "/elsewhere") baseFs
    (script
       [ExecFail "" "Command failed: false"; ExecFail "" "Command failed: false";
        ExecFail "" "Command failed: false"; ExecFail "" "Command failed: false"]
       [OracleResponse (Some "false"); OracleResponse (Some "false");
        OracleResponse (Some "false"); OracleResponse (Some "false")]
       "build an app" [true; true; true; true] ["f1"; "f2"; "f3"; "f4"]).

(** The plan asks for a file; the generation request is rejected. *)
Definition fatalWorld : World scripted :=
  scriptedWorld (freshState "/elsewhere") baseFs
    (script []
       [OracleResponse (Some "touch app.js"); OracleRejected "503 Service Unavailable";
        OracleResponse (Some "touch app.js")]
       "build an app" [true; true; true] ["f1"; "f2"; "f3"]).

(** The same, the generation request being answered without text. *)
Definition noTextWorld : World scripted :=
  scriptedWorld (freshState "/elsewhere") baseFs
    (script []
       [OracleResponse (Some "touch app.js"); OracleResponse None;
        OracleResponse (Some "touch app.js")]
       "build an app" [true; true; true] ["f1"; "f2"; "f3"]).

(** The world after the plan [cd sub], [cd ..] has been executed there. *)
Definition leavingPlan : string := "cd sub
cd ..".

Definition returningPlan : string := "cd sub
touch app.js".

Definition afterLeaving : World scripted :=
  worldOf (executePlan 1 leavingPlan "task" revisitWorld).

Definition afterReturning : World scripted :=
  worldOf (executePlan 1 returningPlan "task" afterLeaving).

(** The stages of the run in [fatalWorld]: after the task was asked for,
    after the plan was obtained, after it was confirmed, and at the end. *)
Definition fatalStarted : World scripted := worldOf (sessionStart fatalWorld).

Definition fatalPlanned : World scripted :=
  worldOf (getRefinedPlan "build an app" fatalStarted).

Definition fatalConfirmed : World scripted :=
  worldOf (promptWith (AskConfirm "touch app.js")
             (answerConfirm scripted "touch app.js") fatalPlanned).

Definition fatalEnd : World scripted := worldOf (main 1 fatalWorld).

(** A fenced block followed by a line feed, and one without. *)
Definition fencedThenNewline : string := "```js
x
```
".

Definition fencedBlock : string := "```js
let x = 1;
```".

(** A regular file named [sub] sits in [/w]. *)
Definition blockedWorld : World scripted :=
  scriptedWorld (freshState "/w") (<["/w/sub" := File "not a directory"]> baseFs)
    (script [] [] "" [] []).

Definition afterBlocked : World scripted :=
  worldOf (executePlan 1 returningPlan "task" blockedWorld).

(** ** Further vocabulary *)

(** A text made of ASCII letters only, such as the language tag of a
    fence. *)
Fixpoint allLetters (s : string) : bool :=
  match s with
  | EmptyString => true
  | String c s' => isAsciiLetter c && allLetters s'
  end.

(** An event of the Plan Executor: a subprocess, or a request to generate
    or to fix a file. *)
Definition isExecutorEvent (e : Event) : Prop :=
  match e with
  | EvExec _ _ => True
  | EvOracle (GenerateFile _ _) => True
  | EvOracle (FixFile _ _ _) => True
  | _ => False
  end.

(** No command of the list is a file creation. *)
Definition noFileCreation (commands : list string) : Prop :=
  Forall (fun cmd => forall filePath, dispatch cmd <> FileCreation filePath) commands.

(** A world in which every subprocess succeeds, and the world after a
    plan of two shell commands has been executed there. *)
Definition quietWorld : World scripted :=
  scriptedWorld (freshState "/w") baseFs (script [] [] "" [] []).

Definition twoCommands : string := "ls
pwd".

Definition afterTwoCommands : World scripted :=
  worldOf (executePlan 0 twoCommands "task" quietWorld).

Definition shellOnlyPlan : string := "cd sub
ls -la
cd ..".

(** A regular file named [a] sits in [/w]. *)
Definition fileInTheWay : World scripted :=
  scriptedWorld (freshState "/w") (<["/w/a" := File "text"]> baseFs)
    (script [] [] "" [] []).

(** [p] and the directories above it: what a recursive [mkdir] of [p]
    makes sure of. *)
Definition directoryChain (p : string) : list string :=
  p :: Path.ancestors (String.length p) p.

Definition isRun (e : Event) : bool :=
  match e with EvExec _ _ => true | _ => false end.

Definition isRepairRequest (e : Event) : bool :=
  match e with EvOracle (FixFile _ _ _) => true | _ => false end.

(** The number of subprocesses, and of repair requests, in a trace. *)
Definition runs (trace : list Event) : nat := List.length (List.filter isRun trace).

Definition repairs (trace : list Event) : nat :=
  List.length (List.filter isRepairRequest trace).

(** An environment in which no program ever runs to its end and the
    oracle always has another version to offer. *)
Definition hopeless : Collaborators := {|
  Env := unit;
  spawn := fun _ _ files u => (ExecFail "SyntaxError" "Command failed", files, u);
  gemini := fun _ u => (OracleResponse (Some "still wrong"), u);
  answerTask := fun u => ("", u);
  answerConfirm := fun _ u => (true, u);
  answerFeedback := fun u => ("", u)
|}.

Definition hopelessWorld : World hopeless :=
  @Build_World hopeless (freshState "/w") (<["/w/app.js" := File "v1"]> baseFs)
    "/w" tt [].

(** A planning request that has no project root to show: its prompt reads
    [Project root: unknown]. *)
Definition rootUnknown (e : Event) : Prop :=
  match e with
  | EvOracle (RefinePlan _ root _ _) => root = None
  | _ => True
  end.

(** The project root of the execution state is the same in both worlds. *)
Definition sameRoot {C : Collaborators} (w w' : World C) : Prop :=
  projectRoot (state w') = projectRoot (state w).

(** From [w] to [w'] no planning request showed a project root, and none
    is set in [w']. *)
Definition rootUnset {C : Collaborators} (w w' : World C) : Prop :=
  projectRoot (state w') = None /\ traceExt rootUnknown w w'.

(** The task after the operator's feedback on failed attempts, oldest
    first (line 265). *)
Definition withFeedback (task : string) (feedbacks : list string) : string :=
  List.fold_left (fun t feedback => t +:+ "
Error: " +:+ feedback) feedbacks task.

(** The world the loop is in after [k] failed attempts. *)
Definition afterFailedAttempts {C : Collaborators} (fuel k : nat) (task : string)
  (w : World C) : World C :=
  match failedAttempts fuel k task w with
  | Some (_, w') => w'
  | None => w
  end.

(** The operator answers the first question with the exit word, in
    capitals. *)
Definition exitWorld : World scripted :=
  scriptedWorld (freshState "/elsewhere") baseFs
    (script [] [OracleResponse (Some "ls")] "EXIT" [true] []).

(** The first plan fails; the operator declines the second one. *)
Definition declineWorld : World scripted :=
  scriptedWorld (freshState "/elsewhere") baseFs
    (script [ExecFail "" "Command failed: false"]
       [OracleResponse (Some "false"); OracleResponse (Some "rm -rf build")]
       "build an app" [true; false] ["f1"]).

Definition declineStarted : World scripted := worldOf (sessionStart declineWorld).

Definition declineRetry : World scripted :=
  afterFailedAttempts 1 1 "build an app" declineStarted.

Definition declinePlanned : World scripted :=
  worldOf (getRefinedPlan "build an app
Error: f1" declineRetry).

Definition declineEnd : World scripted := worldOf (main 1 declineWorld).

(** The first plan fails; the second one is executed with success. *)
Definition recoverWorld : World scripted :=
  scriptedWorld (freshState "/elsewhere") baseFs
    (script [ExecFail "" "Command failed: false"; ExecOk "" ""]
       [OracleResponse (Some "false"); OracleResponse (Some "mkdir build")]
       "build an app" [true; true] ["f1"]).

Definition recoverStarted : World scripted := worldOf (sessionStart recoverWorld).

Definition recoverRetry : World scripted :=
  afterFailedAttempts 1 1 "build an app" recoverStarted.

Definition recoverPlanned : World scripted :=
  worldOf (getRefinedPlan "build an app
Error: f1" recoverRetry).

Definition recoverConfirmed : World scripted :=
  worldOf (promptWith (AskConfirm "mkdir build")
             (answerConfirm scripted "mkdir build") recoverPlanned).

Definition recoverEnd : World scripted := worldOf (main 1 recoverWorld).

(** The first plan fails; the request for the second one is rejected. *)
Definition planFailWorld : World scripted :=
  scriptedWorld (freshState "/elsewhere") baseFs
    (script [ExecFail "" "Command failed: false"]
       [OracleResponse (Some "false"); OracleRejected "429 Too Many Requests"]
       "build an app" [true; true] ["f1"]).

Definition planFailStarted : World scripted := worldOf (sessionStart planFailWorld).

Definition planFailRetry : World scripted :=
  afterFailedAttempts 1 1 "build an app" planFailStarted.

Definition planFailEnd : World scripted := worldOf (main 1 planFailWorld).

(** The world after [touch app.js] has been handled in [revisitWorld]. *)
Definition createdWorld : World scripted :=
  worldOf (handleCommand 1 "touch app.js" "task" revisitWorld).





(** A regular file named [sub] sits in [/w].  The first plan is [cd sub],
    which fails; the second one creates a file beside it. *)
Definition driftWorld : World scripted :=
  scriptedWorld (freshState "/elsewhere")
    (<["/w/sub" := File "not a directory"]> baseFs)
    (script [ExecOk "" ""]
       [OracleResponse (Some "cd sub"); OracleResponse (Some "touch ../app.js");
        OracleResponse (Some "console.log(1);")]
       "build an app" [true; true] ["f1"]).
(** * Properties *)

Open Scope list_scope.

(** ** Sanity checks of the embedding *)

Example strip_plain : stripCodeFences "```js
let x = 1;
```" = "let x = 1;".
Proof. reflexivity. Qed.

Example classify_cd : classify "cd src" = Dispatched (DirectoryChange "src").
Proof. reflexivity. Qed.

Example classify_node : classify "node index.js" = Dispatched (FileCreation "index.js").
Proof. reflexivity. Qed.

Example ex_split : split SPACE "a b  c" = ["a"; "b"; ""; "c"].
Proof. reflexivity. Qed.

Example ex_cands : candidateCommands "```bash
cd src
# c
npm run dev
 ls -la
```" = ["cd src"; "ls -la"].
Proof. reflexivity. Qed.

Example resolve_rel : Path.resolve "/w" "/w/app" "src/index.js" = "/w/app/src/index.js".
Proof. reflexivity. Qed.

Example resolve_up : Path.resolve "/w" "/w/app" "../x/./y/" = "/w/x/y".
Proof. reflexivity. Qed.

Example resolve_abs : Path.resolve "/w" "/w/app" "/tmp//a" = "/tmp/a".
Proof. reflexivity. Qed.

Example dirname_ex : Path.dirname "/w/app/index.js" = "/w/app"
  /\ Path.dirname "/w" = "/" /\ Path.dirname "/" = "/" /\ Path.dirname "a" = ".".
Proof. repeat split. Qed.

Example ancestors_ex : Path.ancestors 6 "/w/app" = ["/w"; "/"].
Proof. reflexivity. Qed.

(** ** Fence stripping *)

Lemma trimStart_head_kept c s :
  isWhiteSpace c = false -> trimStart (String c s) = String c s.
Proof. intros H. simpl. now rewrite H. Qed.

(** The result of [trimStart] is empty or begins with a code unit that is
    not white space. *)
Lemma trimStart_shape s :
  trimStart s = EmptyString
  \/ exists c r, trimStart s = String c r /\ isWhiteSpace c = false.
Proof.
  induction s as [|c s IH]; simpl; [now left|].
  destruct (isWhiteSpace c) eqn:E; [exact IH|].
  right. now exists c, s.
Qed.

Lemma trimEnd_keeps_head c s :
  isWhiteSpace c = false -> exists r, trimEnd (String c s) = String c r.
Proof.
  intros H. simpl. destruct (trimEnd s) as [|d r].
  - rewrite H. now exists EmptyString.
  - now exists (String d r).
Qed.

Lemma trimEnd_idempotent s : trimEnd (trimEnd s) = trimEnd s.
Proof.
  induction s as [|c s IH]; simpl; [reflexivity|].
  destruct (trimEnd s) as [|d r] eqn:E.
  - destruct (isWhiteSpace c) eqn:W; simpl; [reflexivity| now rewrite W].
  - change (trimEnd (String c (String d r))) with
      (match trimEnd (String d r) with
       | EmptyString => if isWhiteSpace c then EmptyString else String c EmptyString
       | x => String c x
       end).
    rewrite IH. reflexivity.
Qed.

Lemma trimStart_trim s : trimStart (trim s) = trim s.
Proof.
  unfold trim. destruct (trimStart_shape s) as [E | (c & r & E & W)]; rewrite E.
  - reflexivity.
  - destruct (trimEnd_keeps_head c r W) as [r' E']. rewrite E'.
    now apply trimStart_head_kept.
Qed.

Lemma trim_idempotent s : trim (trim s) = trim s.
Proof.
  unfold trim at 1. rewrite trimStart_trim. unfold trim.
  apply trimEnd_idempotent.
Qed.

Lemma eqb_false_dropSuffix p s :
  endsWith p s = false -> dropSuffix p s = s.
Proof.
  induction s as [|c s IH]; simpl; intros H.
  - apply orb_false_iff in H as [H _]. now rewrite H.
  - apply orb_false_iff in H as [H1 H2]. rewrite H1. now rewrite IH.
Qed.

Lemma replaceOpeningFence_id s :
  startsWith fence s = false -> replaceOpeningFence s = s.
Proof. intros H. unfold replaceOpeningFence. now rewrite H. Qed.

Lemma stripCodeFences_trimmed x : trim (stripCodeFences x) = stripCodeFences x.
Proof. unfold stripCodeFences. apply trim_idempotent. Qed.

(** Lengths: every stage of the stripping only removes code units. *)
Lemma trimStart_length s : String.length (trimStart s) <= String.length s.
Proof.
  induction s as [|c s IH]; simpl; [lia|].
  destruct (isWhiteSpace c); simpl; lia.
Qed.

Lemma trimEnd_length s : String.length (trimEnd s) <= String.length s.
Proof.
  induction s as [|c s IH]; simpl; [lia|].
  destruct (trimEnd s); [destruct (isWhiteSpace c)|]; simpl in *; lia.
Qed.

Lemma trim_length s : String.length (trim s) <= String.length s.
Proof.
  unfold trim. etransitivity; [apply trimEnd_length | apply trimStart_length].
Qed.

Lemma dropSuffix_length p s : String.length (dropSuffix p s) <= String.length s.
Proof.
  induction s as [|c s IH]; cbn [dropSuffix].
  - destruct (String.eqb "" p); simpl; lia.
  - destruct (String.eqb (String c s) p); simpl; lia.
Qed.

Lemma dropSuffix_shorter p s :
  p <> EmptyString -> endsWith p s = true ->
  String.length (dropSuffix p s) < String.length s.
Proof.
  intros Hp. induction s as [|c s IH]; cbn [dropSuffix endsWith]; intros H.
  - destruct (String.eqb_spec "" p) as [E|E]; [now subst | discriminate].
  - destruct (String.eqb_spec (String c s) p) as [E|E]; simpl; [lia|].
    simpl in H. specialize (IH H). lia.
Qed.

Lemma dropLetters_length s : String.length (dropLetters s) <= String.length s.
Proof.
  induction s as [|c s IH]; simpl; [lia|].
  destruct (isAsciiLetter c); simpl; lia.
Qed.

Lemma dropNewline_length s : String.length (dropNewline s) <= String.length s.
Proof. destruct s as [|c s]; simpl; [lia|]. destruct (Ascii.eqb c LF); simpl; lia. Qed.

Lemma slice_length n s : String.length (slice n s) <= String.length s.
Proof.
  revert s. induction n as [|n IH]; intros [|c s]; simpl; try lia.
  specialize (IH s). lia.
Qed.

Lemma replaceOpeningFence_length s :
  String.length (replaceOpeningFence s) <= String.length s.
Proof.
  unfold replaceOpeningFence. destruct (startsWith fence s); [|lia].
  etransitivity; [apply dropNewline_length|].
  etransitivity; [apply dropLetters_length|]. apply slice_length.
Qed.

Lemma startsWith_length p s :
  startsWith p s = true -> String.length p <= String.length s.
Proof.
  revert s. induction p as [|a p IH]; intros [|b s] H; cbn [startsWith] in H;
    simpl; try lia; try discriminate.
  apply andb_true_iff in H as [_ H]. specialize (IH s H). lia.
Qed.

Lemma slice_length_exact n s :
  n <= String.length s -> String.length (slice n s) = String.length s - n.
Proof.
  revert s. induction n as [|n IH]; intros [|c s]; simpl; intros H; try lia.
  apply IH. lia.
Qed.

Lemma replaceOpeningFence_shorter s :
  startsWith fence s = true ->
  String.length (replaceOpeningFence s) < String.length s.
Proof.
  intros H. unfold replaceOpeningFence. rewrite H.
  apply startsWith_length in H. change (String.length fence) with 3 in H.
  eapply Nat.le_lt_trans; [apply dropNewline_length|].
  eapply Nat.le_lt_trans; [apply dropLetters_length|].
  rewrite slice_length_exact by exact H. lia.
Qed.

(** A text that still carries a fence at either end is changed by
    [stripCodeFences]. *)
Lemma stripCodeFences_fixpoint_unfenced y :
  stripCodeFences y = y ->
  startsWith fence y = false /\ endsWith fence y = false.
Proof.
  intros Hfix.
  assert (Hlen : String.length (stripCodeFences y) = String.length y) by now rewrite Hfix.
  unfold stripCodeFences, replaceClosingFence in Hlen.
  pose proof (trim_length (dropSuffix fence (replaceOpeningFence y))) as L1.
  pose proof (dropSuffix_length fence (replaceOpeningFence y)) as L2.
  pose proof (replaceOpeningFence_length y) as L3.
  destruct (startsWith fence y) eqn:S.
  - pose proof (replaceOpeningFence_shorter y S). lia.
  - split; [reflexivity|].
    rewrite (replaceOpeningFence_id y S) in *.
    destruct (endsWith fence y) eqn:E; [|reflexivity].
    assert (fence <> EmptyString) by discriminate.
    pose proof (dropSuffix_shorter fence y H E). lia.
Qed.

(** C2, as the specification states it, fails: a fenced block followed by a
    line feed loses its opening fence in the first pass and its closing
    fence only in the second. *)
Lemma stripCodeFences_not_idempotent :
  stripCodeFences fencedThenNewline = "x
```"
  /\ stripCodeFences (stripCodeFences fencedThenNewline) = "x"
  /\ stripCodeFences (stripCodeFences fencedThenNewline)
     <> stripCodeFences fencedThenNewline.
Proof. repeat split; discriminate. Qed.

(** C2 (amended): stripping is idempotent on every text whose stripped form
    neither begins nor ends with a fence; one pass removes one opening and
    one closing fence only. *)
Theorem stripCodeFences_idempotent_unfenced (x : string) :
  startsWith fence (stripCodeFences x) = false ->
  endsWith fence (stripCodeFences x) = false ->
  stripCodeFences (stripCodeFences x) = stripCodeFences x.
Proof.
  intros Hs He.
  unfold stripCodeFences at 1.
  rewrite (replaceOpeningFence_id _ Hs).
  unfold replaceClosingFence. rewrite (eqb_false_dropSuffix _ _ He).
  apply stripCodeFences_trimmed.
Qed.

Lemma stripCodeFences_idempotent_unfenced_witness :
  stripCodeFences (stripCodeFences fencedBlock) = stripCodeFences fencedBlock.
Proof.
  apply (stripCodeFences_idempotent_unfenced fencedBlock); reflexivity.
Defined.

(** The condition of the amended C2 is also necessary. *)
Lemma stripCodeFences_idempotent_iff (x : string) :
  stripCodeFences (stripCodeFences x) = stripCodeFences x
  <-> startsWith fence (stripCodeFences x) = false
      /\ endsWith fence (stripCodeFences x) = false.
Proof.
  split.
  - apply stripCodeFences_fixpoint_unfenced.
  - intros [Hs He].
    unfold stripCodeFences at 1.
    rewrite (replaceOpeningFence_id _ Hs).
    unfold replaceClosingFence. rewrite (eqb_false_dropSuffix _ _ He).
    apply stripCodeFences_trimmed.
Qed.

(** ** Command classification *)



(** ** Relations that every step of a computation keeps *)

Section Respects.

Context {C : Collaborators}.
Variable R : World C -> World C -> Prop.
Hypothesis R_refl : forall w, R w w.
Hypothesis R_trans : forall w1 w2 w3, R w1 w2 -> R w2 w3 -> R w1 w3.

Lemma respects_ret {A} (a : A) : respects R (ret a).
Proof. intros w. apply R_refl. Qed.

Lemma respects_throw {A} (e : Error) : respects R (@throw C A e).
Proof. intros w. apply R_refl. Qed.

Lemma respects_bind {A B} (m : M C A) (k : A -> M C B) :
  respects R m -> (forall a, respects R (k a)) -> respects R (bind m k).
Proof.
  intros Hm Hk w. unfold bind. specialize (Hm w).
  destruct (m w) as [a w'|e w'|w']; simpl in *; try exact Hm.
  eapply R_trans; [exact Hm | apply Hk].
Qed.

Lemma respects_tryCatch {A} (m : M C A) (h : Error -> M C A) :
  respects R m -> (forall e, respects R (h e)) -> respects R (tryCatch m h).
Proof.
  intros Hm Hh w. unfold tryCatch. specialize (Hm w).
  destruct (m w) as [a w'|e w'|w']; simpl in *; try exact Hm.
  eapply R_trans; [exact Hm | apply Hh].
Qed.

Lemma respects_getState : respects R (@getState C).
Proof. intros w. apply R_refl. Qed.

Lemma respects_cwd : respects R (@cwd C).
Proof. intros w. apply R_refl. Qed.

Lemma respects_fsExists p : respects R (@fsExists C p).
Proof. intros w. apply R_refl. Qed.

(** The calls of the Artifact Generator and the Runtime Validator. *)
Hypothesis R_execAsync : forall cmd cwdOption, respects R (execAsync cmd cwdOption).
Hypothesis R_generateFile : forall filePath task,
  respects R (generateText (GenerateFile filePath task)).
Hypothesis R_fixFile : forall code error task,
  respects R (generateText (FixFile code error task)).
Hypothesis R_mkdir : forall p, respects R (mkdir p).
Hypothesis R_writeFile : forall p content, respects R (writeFile p content).
Hypothesis R_readFile : forall p, respects R (readFile p).

Lemma respects_generateFileContent filePath task :
  respects R (generateFileContent filePath task).
Proof.
  unfold generateFileContent. apply respects_bind; [apply R_generateFile|].
  intros raw. apply respects_ret.
Qed.

Lemma respects_writeCodeToFile filePath code :
  respects R (writeCodeToFile filePath code).
Proof.
  unfold writeCodeToFile. apply respects_bind; [apply R_mkdir|].
  intros _. apply R_writeFile.
Qed.

Lemma respects_repairAndRetry retry filePath task stderr message :
  respects R retry ->
  respects R (repairAndRetry retry filePath task stderr message).
Proof.
  intros Hretry. unfold repairAndRetry.
  apply respects_bind; [apply R_readFile|]. intros code.
  apply respects_bind; [apply R_fixFile|]. intros raw.
  apply respects_bind; [apply respects_writeCodeToFile|]. intros _.
  exact Hretry.
Qed.

Lemma respects_runFileAndFixIfError fuel filePath task :
  respects R (runFileAndFixIfError fuel filePath task).
Proof.
  induction fuel as [|fuel IH]; simpl.
  - intros w. apply R_refl.
  - apply respects_bind; [apply R_execAsync|].
    intros [out err|stderr message]; [apply respects_ret|].
    now apply respects_repairAndRetry.
Qed.

(** The mutations of the Plan Executor. *)
Hypothesis R_setCurrentDir : forall p, respects R (setCurrentDir p).
Hypothesis R_chdir : forall p, respects R (chdir p).
Hypothesis R_pushExecuted : forall cmd, respects R (pushExecuted cmd).

Lemma respects_changeDirectory cmd targetDir :
  respects R (changeDirectory cmd targetDir).
Proof.
  unfold changeDirectory.
  apply respects_bind; [apply respects_getState|]. intros st.
  apply respects_bind; [apply respects_cwd|]. intros here.
  apply respects_tryCatch; [|intros e; apply respects_ret].
  apply respects_bind; [apply respects_fsExists|]. intros present.
  apply respects_bind.
  { destruct present; simpl; [apply respects_ret | apply R_mkdir]. }
  intros _. apply respects_bind; [apply R_setCurrentDir|].
  intros _. apply respects_bind; [apply R_chdir|].
  intros _. apply respects_bind; [apply R_pushExecuted|].
  intros _. apply respects_ret.
Qed.

Lemma respects_createFile fuel cmd filePath task :
  respects R (createFile fuel cmd filePath task).
Proof.
  unfold createFile.
  apply respects_bind; [apply respects_getState|]. intros st.
  apply respects_bind; [apply respects_cwd|]. intros here.
  apply respects_bind; [apply respects_generateFileContent|]. intros code.
  apply respects_bind; [apply respects_writeCodeToFile|]. intros _.
  apply respects_bind; [apply respects_runFileAndFixIfError|]. intros _.
  apply respects_bind; [apply R_pushExecuted|]. intros _.
  apply respects_ret.
Qed.

Lemma respects_runShell cmd : respects R (runShell cmd).
Proof.
  unfold runShell.
  apply respects_bind; [apply respects_getState|]. intros st.
  apply respects_bind; [apply R_execAsync|].
  intros [out err|stderr message]; [|apply respects_ret].
  apply respects_bind; [apply R_pushExecuted|]. intros _. apply respects_ret.
Qed.

Lemma respects_handleCommand fuel cmd task :
  respects R (handleCommand fuel cmd task).
Proof.
  unfold handleCommand.
  apply respects_bind; [apply respects_getState|]. intros st.
  destruct (arrayIncludes cmd (executedCommands st)); [apply respects_ret|].
  destruct (dispatch cmd).
  - apply respects_changeDirectory.
  - apply respects_createFile.
  - apply respects_runShell.
Qed.

Lemma respects_executeCommands fuel commands task :
  respects R (executeCommands fuel commands task).
Proof.
  induction commands as [|cmd rest IH]; simpl; [apply respects_ret|].
  apply respects_bind; [apply respects_handleCommand|].
  intros [|]; [exact IH | apply respects_ret].
Qed.

Lemma respects_executePlan fuel plan task :
  respects R (executePlan fuel plan task).
Proof. apply respects_executeCommands. Qed.

End Respects.

(** Unfolds a primitive operation and splits on what the environment
    answers. *)
Ltac run_primitive :=
  unfold respects; intros; cbv beta iota zeta delta [execAsync generateText mkdir writeFile readFile setFs
    setCurrentDir chdir pushExecuted getState setState bind] in *;
  repeat match goal with
         | |- context [match ?x with _ => _ end] => destruct x eqn:?
         end;
  simpl.

(** ** What the Runtime Validator leaves alone, and what the trace records *)

Section Frames.

Context {C : Collaborators}.

Lemma sameState_refl (w : World C) : sameState w w.
Proof. now split. Qed.

Lemma sameState_trans (w1 w2 w3 : World C) :
  sameState w1 w2 -> sameState w2 w3 -> sameState w1 w3.
Proof. intros [A B] [A' B']. split; congruence. Qed.

Lemma traceExt_refl P (w : World C) : traceExt P w w.
Proof. exists []. split; [now rewrite app_nil_r | constructor]. Qed.

Lemma traceExt_trans P (w1 w2 w3 : World C) :
  traceExt P w1 w2 -> traceExt P w2 w3 -> traceExt P w1 w3.
Proof.
  intros (n1 & E1 & F1) (n2 & E2 & F2). exists (n1 ++ n2). split.
  - rewrite E2, E1. now rewrite <- app_assoc.
  - apply Forall_app. now split.
Qed.

Lemma traceExt_same (P : Event -> Prop) (w w' : World C) :
  events w' = events w -> traceExt P w w'.
Proof. intros E. exists []. split; [now rewrite app_nil_r | constructor]. Qed.

Lemma traceExt_one (P : Event -> Prop) (w w' : World C) e :
  events w' = events w ++ [e] -> P e -> traceExt P w w'.
Proof. intros E H. exists [e]. split; [exact E | now repeat constructor]. Qed.

Lemma traceExt_weaken (P Q : Event -> Prop) (w w' : World C) :
  (forall e, P e -> Q e) -> traceExt P w w' -> traceExt Q w w'.
Proof.
  intros H (new & E & F). exists new. split; [exact E|].
  eapply Forall_impl; eauto.
Qed.

Lemma sameState_execAsync cmd o : respects (@sameState C) (@execAsync C cmd o).
Proof. run_primitive; now split. Qed.

Lemma sameState_generateText req : respects (@sameState C) (@generateText C req).
Proof. run_primitive; now split. Qed.

Lemma sameState_mkdir p : respects (@sameState C) (@mkdir C p).
Proof. run_primitive; now split. Qed.

Lemma sameState_writeFile p c : respects (@sameState C) (@writeFile C p c).
Proof. run_primitive; now split. Qed.

Lemma sameState_readFile p : respects (@sameState C) (@readFile C p).
Proof. run_primitive; now split. Qed.

Ltac same_state :=
  intros;
  first [ apply sameState_refl
        | eapply sameState_trans; eassumption
        | apply sameState_execAsync
        | apply sameState_generateText
        | apply sameState_mkdir
        | apply sameState_writeFile
        | apply sameState_readFile ].

(** The Runtime Validator never touches the execution state. *)
Lemma sameState_runFileAndFixIfError fuel filePath task :
  respects (@sameState C) (@runFileAndFixIfError C fuel filePath task).
Proof.
  apply respects_runFileAndFixIfError; same_state.
Qed.

Lemma sameState_generateFileContent filePath task :
  respects (@sameState C) (@generateFileContent C filePath task).
Proof.
  apply respects_generateFileContent; same_state.
Qed.

Lemma sameState_writeCodeToFile filePath code :
  respects (@sameState C) (@writeCodeToFile C filePath code).
Proof.
  apply respects_writeCodeToFile; same_state.
Qed.

End Frames.

Ltac trace_step :=
  run_primitive;
  first [ solve [ apply traceExt_same; reflexivity ]
        | solve [ eapply traceExt_one; reflexivity ] ].

Ltac trace_any :=
  run_primitive;
  first [ solve [ apply traceExt_same; reflexivity ]
        | solve [ eapply traceExt_one; [reflexivity | exact I] ] ].

(** Neither the Plan Executor nor anything below it calls the planning
    oracle. *)
Lemma noPlanning_executePlan {C : Collaborators} fuel plan task :
  respects (@traceExt C notPlanning) (@executePlan C fuel plan task).
Proof.
  apply respects_executePlan;
    [ apply traceExt_refl | apply traceExt_trans | trace_step .. ].
Qed.

(** ** The history of executed commands *)

Ltac break_inner :=
  match goal with
  | |- context [match ?x with _ => _ end] =>
      lazymatch x with
      | context [match _ with _ => _ end] => fail
      | _ => destruct x eqn:?
      end
  end.

Ltac run_steps :=
  cbv beta iota zeta delta [changeDirectory runShell bind tryCatch getState cwd
    fsExists mkdir setFs setCurrentDir setState chdir pushExecuted execAsync ret];
  repeat (break_inner; cbv beta iota zeta);
  simpl.


Section History.

Context {C : Collaborators}.

Lemma handleCommand_skip fuel cmd task (w : World C) :
  arrayIncludes cmd (executedCommands (state w)) = true ->
  handleCommand fuel cmd task w = Ok Continue w.
Proof. intros H. unfold handleCommand, bind, getState. now rewrite H. Qed.

Lemma handleCommand_fresh fuel cmd task (w : World C) :
  arrayIncludes cmd (executedCommands (state w)) = false ->
  handleCommand fuel cmd task w =
  match dispatch cmd with
  | DirectoryChange targetDir => changeDirectory cmd targetDir w
  | FileCreation filePath => createFile fuel cmd filePath task w
  | ShellCommand c => runShell c w
  end.
Proof.
  intros H. unfold handleCommand, bind, getState. rewrite H.
  now destruct (dispatch cmd).
Qed.

Lemma changeDirectory_history cmd targetDir (w : World C) :
  historyStep cmd w (changeDirectory cmd targetDir w).
Proof. unfold historyStep. run_steps; reflexivity. Qed.

Lemma runShell_history cmd (w : World C) :
  historyStep cmd w (runShell cmd w).
Proof. unfold historyStep. run_steps; reflexivity. Qed.

Lemma createFile_history fuel cmd filePath task (w : World C) :
  historyStep cmd w (createFile fuel cmd filePath task w)
  /\ (forall w', createFile fuel cmd filePath task w <> Ok ReturnFailure w').
Proof.
  unfold createFile, historyStep.
  cbv beta iota zeta delta [bind getState cwd].
  set (fullPath := Path.resolve (processCwd w) (currentDir (state w)) filePath).
  destruct (sameState_generateFileContent fullPath task w) as [S1 _].
  destruct (generateFileContent fullPath task w) as [code w1|e w1|w1];
    simpl in S1; try (split; [now rewrite S1 | discriminate]).
  destruct (sameState_writeCodeToFile fullPath code w1) as [S2 _].
  destruct (writeCodeToFile fullPath code w1) as [[] w2|e w2|w2];
    simpl in S2; try (split; [congruence | discriminate]).
  destruct (sameState_runFileAndFixIfError fuel fullPath task w2) as [S3 _].
  destruct (runFileAndFixIfError fuel fullPath task w2) as [[] w3|e w3|w3];
    simpl in S3; try (split; [congruence | discriminate]).
  cbv beta iota zeta delta [pushExecuted bind getState setState ret]. simpl.
  split; [congruence | discriminate].
Qed.

Lemma dispatch_shell cmd c : dispatch cmd = ShellCommand c -> c = cmd.
Proof.
  unfold dispatch.
  destruct (startsWith "cd " cmd); [discriminate|].
  destruct (isFileCreationCommand cmd); [discriminate|].
  now intros [= ->].
Qed.

(** The loop body, by outcome. *)
Lemma handleCommand_history fuel cmd task (w : World C) :
  let history := executedCommands (state w) in
  match handleCommand fuel cmd task w with
  | Ok Continue w' =>
      executedCommands (state w')
      = if arrayIncludes cmd history then history else history ++ [cmd]
  | Ok ReturnFailure w' =>
      executedCommands (state w') = history
      /\ arrayIncludes cmd history = false
      /\ (forall filePath, dispatch cmd <> FileCreation filePath)
  | Throw _ w' | OutOfFuel w' => executedCommands (state w') = history
  end.
Proof.
  intros history. subst history.
  destruct (arrayIncludes cmd (executedCommands (state w))) eqn:E.
  - now rewrite handleCommand_skip.
  - rewrite handleCommand_fresh by exact E.
    destruct (dispatch cmd) as [targetDir|filePath|c] eqn:D.
    + pose proof (changeDirectory_history cmd targetDir w) as H.
      unfold historyStep in H.
      destruct (changeDirectory cmd targetDir w) as [[|] w'|e w'|w']; auto;
        repeat split; auto; discriminate.
    + destruct (createFile_history fuel cmd filePath task w) as [H N].
      unfold historyStep in H.
      destruct (createFile fuel cmd filePath task w) as [[|] w'|e w'|w']; auto.
      now destruct (N w').
    + apply dispatch_shell in D as ->.
      pose proof (runShell_history cmd w) as H. unfold historyStep in H.
      destruct (runShell cmd w) as [[|] w'|e w'|w']; auto;
        repeat split; auto; discriminate.
Qed.

Lemma arrayIncludes_In x l : arrayIncludes x l = true <-> In x l.
Proof.
  unfold arrayIncludes. rewrite existsb_exists. split.
  - intros (y & Hy & E). apply String.eqb_eq in E. now subst.
  - intros H. exists x. split; [exact H | apply String.eqb_refl].
Qed.

Lemma arrayIncludes_app x l l' :
  arrayIncludes x (l ++ l') = arrayIncludes x l || arrayIncludes x l'.
Proof. unfold arrayIncludes. apply existsb_app. Qed.

(** The history of a loop that ran to its end. *)
Lemma executeCommands_completed fuel commands task (w w' : World C) :
  executeCommands fuel commands task w = Ok true w' ->
  executedCommands (state w') = appendFresh (executedCommands (state w)) commands.
Proof.
  revert w. induction commands as [|cmd rest IH]; simpl; intros w H.
  - unfold ret in H. now inversion H.
  - unfold bind in H. pose proof (handleCommand_history fuel cmd task w) as Hh.
    simpl in Hh.
    destruct (handleCommand fuel cmd task w) as [[|] w1|e w1|w1]; try discriminate.
    apply IH in H. rewrite H, Hh.
    now destruct (arrayIncludes cmd (executedCommands (state w))).
Qed.

(** Every abort has a first command that failed; the commands before it
    were handled to the end. *)
Lemma executeCommands_aborted fuel commands task (w w' : World C) :
  executeCommands fuel commands task w = Ok false w' ->
  exists pre cmd post w1,
    commands = pre ++ cmd :: post
    /\ executeCommands fuel pre task w = Ok true w1
    /\ handleCommand fuel cmd task w1 = Ok ReturnFailure w'.
Proof.
  revert w. induction commands as [|cmd rest IH]; simpl; intros w H.
  - discriminate.
  - unfold bind in H.
    destruct (handleCommand fuel cmd task w) as [[|] w1|e w1|w1] eqn:E;
      try discriminate.
    + destruct (IH _ H) as (pre & c & post & w2 & -> & Hpre & Hc).
      exists (cmd :: pre), c, post, w2. repeat split; auto.
      simpl. unfold bind. now rewrite E.
    + unfold ret in H. inversion H; subst.
      exists [], cmd, rest, w. now repeat split.
Qed.



(** However the loop ends, the history it started with is still there. *)
Lemma executeCommands_history_grows fuel commands task (w : World C) :
  exists added,
    executedCommands (state (worldOf (executeCommands fuel commands task w)))
    = executedCommands (state w) ++ added.
Proof.
  revert w. induction commands as [|cmd rest IH]; intros w.
  - exists []. cbn. now rewrite app_nil_r.
  - cbn [executeCommands]. unfold bind.
    pose proof (handleCommand_history fuel cmd task w) as Hh. simpl in Hh.
    destruct (handleCommand fuel cmd task w) as [[|] w1|e w1|w1];
      cbn [worldOf ret].
    + destruct (IH w1) as (added & E). rewrite E, Hh.
      destruct (arrayIncludes cmd (executedCommands (state w))).
      * now exists added.
      * exists (cmd :: added). now rewrite <- app_assoc.
    + exists []. destruct Hh as [-> _]. now rewrite app_nil_r.
    + exists []. rewrite Hh. now rewrite app_nil_r.
    + exists []. rewrite Hh. now rewrite app_nil_r.
Qed.

End History.

(** ** The Plan Executor: deduplication and sequential abort *)

Section Executor.

Context {C : Collaborators}.

Lemma runShell_ok cmd (w : World C) out err fs' env' :
  spawn C cmd (currentDir (state w)) (fs w) (env w) = (ExecOk out err, fs', env') ->
  runShell cmd w =
  Ok Continue
    {| state := {| currentDir := currentDir (state w);
                   executedCommands := executedCommands (state w) ++ [cmd];
                   projectRoot := projectRoot (state w) |};
       fs := fs'; processCwd := processCwd w; env := env';
       events := events w ++ [EvExec cmd (Some (currentDir (state w)))] |}.
Proof.
  intros H. unfold runShell, bind, getState, execAsync. rewrite H. reflexivity.
Qed.

Lemma runShell_fail cmd (w : World C) stderr message fs' env' :
  spawn C cmd (currentDir (state w)) (fs w) (env w) = (ExecFail stderr message, fs', env') ->
  runShell cmd w =
  Ok ReturnFailure
    {| state := state w; fs := fs'; processCwd := processCwd w; env := env';
       events := events w ++ [EvExec cmd (Some (currentDir (state w)))] |}.
Proof.
  intros H. unfold runShell, bind, getState, execAsync. rewrite H. reflexivity.
Qed.

Lemma history_keeps_member fuel cmd task c (w w' : World C) :
  handleCommand fuel cmd task w = Ok Continue w' ->
  In c (executedCommands (state w)) -> In c (executedCommands (state w')).
Proof.
  intros H Hin. pose proof (handleCommand_history fuel cmd task w) as Hh.
  simpl in Hh. rewrite H in Hh. rewrite Hh.
  destruct (arrayIncludes cmd (executedCommands (state w))); [exact Hin|].
  apply in_or_app. now left.
Qed.

(** Lines of the plan that are already in the history contribute nothing:
    the loop behaves as if they were not there. *)
Lemma executeCommands_without_executed fuel commands task c (w : World C) :
  In c (executedCommands (state w)) ->
  executeCommands fuel commands task w
  = executeCommands fuel
      (List.filter (fun x => negb (String.eqb x c)) commands) task w.
Proof.
  revert w. induction commands as [|cmd rest IH]; intros w Hin; [reflexivity|].
  cbn [List.filter]. destruct (String.eqb_spec cmd c) as [->|Hne]; cbn [negb].
  - cbn [executeCommands]. unfold bind at 1.
    rewrite handleCommand_skip by now apply arrayIncludes_In.
    now apply IH.
  - cbn [executeCommands]. unfold bind.
    destruct (handleCommand fuel cmd task w) as [[|] w1|e w1|w1] eqn:E;
      try reflexivity.
    apply IH. eapply history_keeps_member; eauto.
Qed.

End Executor.

(** While the loop continues, the working directory of the process is the
    current directory of the execution state. *)
Lemma handleCommand_cwd_in_sync {C : Collaborators}
  (fuel : nat) (cmd task : string) (w w' : World C) :
  processCwd w = currentDir (state w) ->
  handleCommand fuel cmd task w = Ok Continue w' ->
  processCwd w' = currentDir (state w').
Proof.
  intros Hsync H.
  destruct (arrayIncludes cmd (executedCommands (state w))) eqn:E.
  - rewrite handleCommand_skip in H by exact E. now inversion H; subst.
  - rewrite handleCommand_fresh in H by exact E.
    destruct (dispatch cmd) as [targetDir|filePath|c].
    + revert H. run_steps; intros [= <-]; reflexivity.
    + revert H. unfold createFile. cbv beta iota zeta delta [bind getState cwd].
      set (fullPath := Path.resolve (processCwd w) (currentDir (state w)) filePath).
      destruct (sameState_generateFileContent fullPath task w) as [S1 T1].
      destruct (generateFileContent fullPath task w) as [code w1|e w1|w1];
        try discriminate. simpl in S1, T1.
      destruct (sameState_writeCodeToFile fullPath code w1) as [S2 T2].
      destruct (writeCodeToFile fullPath code w1) as [[] w2|e w2|w2];
        try discriminate. simpl in S2, T2.
      destruct (sameState_runFileAndFixIfError fuel fullPath task w2) as [S3 T3].
      destruct (runFileAndFixIfError fuel fullPath task w2) as [[] w3|e w3|w3];
        try discriminate. simpl in S3, T3.
      cbv beta iota zeta delta [pushExecuted bind getState setState ret].
      intros [= <-]. cbn. congruence.
    + revert H. run_steps; intros [= <-]; try discriminate. cbn. exact Hsync.
Qed.

(** *** The two directories *)

Section Directories.

Context {C : Collaborators}.







End Directories.

(** C6: three shell commands, the first succeeds, the second (another
    line than the first) fails: the executor returns [success = false],
    the history holds the first command only, and the trace shows that
    only the first two were spawned. *)
Theorem sequential_abort {C : Collaborators}
  (fuel : nat) (plan task c1 c2 c3 : string) (w : World C)
  (out err stderr message : string) (fs1 fs2 : gmap string FsNode) (env1 env2 : Env C) :
  candidateCommands plan = [c1; c2; c3] ->
  dispatch c1 = ShellCommand c1 ->
  dispatch c2 = ShellCommand c2 ->
  dispatch c3 = ShellCommand c3 ->
  executedCommands (state w) = [] ->
  c1 <> c2 ->
  spawn C c1 (currentDir (state w)) (fs w) (env w) = (ExecOk out err, fs1, env1) ->
  spawn C c2 (currentDir (state w)) fs1 env1 = (ExecFail stderr message, fs2, env2) ->
  exists w',
    executePlan fuel plan task w = Ok false w'
    /\ executedCommands (state w') = [c1]
    /\ events w' = events w ++ [EvExec c1 (Some (currentDir (state w)));
                                EvExec c2 (Some (currentDir (state w)))]
    /\ fs w' = fs2.
Proof.
  intros Hplan D1 D2 _ Hnil Hne S1 S2.
  unfold executePlan. rewrite Hplan. cbn [executeCommands]. unfold bind at 1.
  rewrite handleCommand_fresh by now rewrite Hnil.
  rewrite D1, (runShell_ok _ _ _ _ _ _ S1). unfold bind at 1.
  rewrite handleCommand_fresh.
  2:{ cbn [state executedCommands]. rewrite Hnil. simpl.
      destruct (String.eqb_spec c2 c1); [congruence | reflexivity]. }
  rewrite D2. erewrite runShell_fail by exact S2.
  eexists. split; [reflexivity|]. cbn. rewrite Hnil.
  repeat split. now rewrite <- app_assoc.
Qed.

(** C10: when the executor returns [success = false], some command of the
    plan, a directory change or a shell command, is the one that failed;
    the commands before it were handled to the end, the history is the
    initial one extended by exactly those of them that were not in it yet,
    and the failing command is not in the history. *)
Theorem abort_keeps_failing_command_out {C : Collaborators}
  (fuel : nat) (plan task : string) (w w' : World C) :
  executePlan fuel plan task w = Ok false w' ->
  exists pre cmd post w1,
    candidateCommands plan = pre ++ cmd :: post
    /\ executeCommands fuel pre task w = Ok true w1
    /\ handleCommand fuel cmd task w1 = Ok ReturnFailure w'
    /\ ((exists targetDir, dispatch cmd = DirectoryChange targetDir)
        \/ dispatch cmd = ShellCommand cmd)
    /\ executedCommands (state w') = appendFresh (executedCommands (state w)) pre
    /\ ~ In cmd (executedCommands (state w')).
Proof.
  intros H. unfold executePlan in H.
  destruct (executeCommands_aborted _ _ _ _ _ H) as (pre & cmd & post & w1 & E & Hpre & Hc).
  exists pre, cmd, post, w1.
  pose proof (handleCommand_history fuel cmd task w1) as Hh. simpl in Hh.
  rewrite Hc in Hh. destruct Hh as (Hsame & Hfresh & Hkind).
  repeat split; auto.
  - destruct (dispatch cmd) as [t|f|c] eqn:D.
    + left. now exists t.
    + now destruct (Hkind f).
    + right. now rewrite (dispatch_shell _ _ D).
  - rewrite Hsame. now apply (executeCommands_completed fuel pre task).
  - rewrite Hsame. intros Hin. apply arrayIncludes_In in Hin. congruence.
Qed.

Lemma sequential_abort_witness :
  exists w',
    executePlan 1 threeCommands "task" abortWorld = Ok false w'
    /\ executedCommands (state w') = ["ls"]
    /\ events w' = [EvExec "ls" (Some "/w"); EvExec "false" (Some "/w")]
    /\ fs w' = baseFs.
Proof.
  apply (sequential_abort 1 threeCommands "task" "ls" "false" "echo hi" abortWorld
           "" "" "" "Command failed: false" baseFs baseFs
           (script [ExecFail "" "Command failed: false"] [] "" [] [])
           (script [] [] "" [] []));
    try reflexivity.
  discriminate.
Defined.

Lemma abort_keeps_failing_command_out_witness :
  exists pre cmd post w1,
    candidateCommands threeCommands = pre ++ cmd :: post
    /\ executeCommands 1 pre "task" abortWorld = Ok true w1
    /\ handleCommand 1 cmd "task" w1
       = Ok ReturnFailure (worldOf (executePlan 1 threeCommands "task" abortWorld))
    /\ ((exists targetDir, dispatch cmd = DirectoryChange targetDir)
        \/ dispatch cmd = ShellCommand cmd)
    /\ executedCommands (state (worldOf (executePlan 1 threeCommands "task" abortWorld)))
       = appendFresh (executedCommands (state abortWorld)) pre
    /\ ~ In cmd (executedCommands
                   (state (worldOf (executePlan 1 threeCommands "task" abortWorld)))).
Proof.
  apply (abort_keeps_failing_command_out 1 threeCommands "task" abortWorld).
  reflexivity.
Defined.

(** ** The Runtime Validator *)

Section Validator.

Context {C : Collaborators}.




Lemma writeFileFs_read p content (fs fs' : gmap string FsNode) :
  writeFileFs p content fs = Some fs' -> readFileFs p fs' = Some content.
Proof.
  unfold writeFileFs, readFileFs.
  destruct (isDirectory p fs); [discriminate|].
  destruct (isDirectory (Path.dirname p) fs); [|discriminate].
  intros [= <-]. now rewrite lookup_insert_eq.
Qed.

End Validator.




(** The two directories do come apart: after a [cd] onto a regular file
    has failed, the next attempt resolves its file against [/w/sub] and
    the validator runs it in [/w]; the run ends well with the two
    directories still different. *)
Lemma validator_runs_outside_currentDir :
  main 1 driftWorld = Ok AllDone (worldOf (main 1 driftWorld))
  /\ List.filter isRun (events (worldOf (main 1 driftWorld)))
     = [EvExec "node /w/app.js" None]
  /\ processCwd (worldOf (main 1 driftWorld)) = "/w"
  /\ currentDir (state (worldOf (main 1 driftWorld))) = "/w/sub".
Proof. split; [|split; [|split]]; vm_compute; reflexivity. Qed.

(** C7: the first run fails, the file can be read, the oracle answers, the
    answer is written, and the second run succeeds without touching the
    file: the validator returns after exactly one repair (one oracle call
    between two runs), and the file holds the oracle's answer, trimmed and
    without its fences.  Two units of fuel are enough. *)
Theorem repair_converges_after_one_cycle {C : Collaborators}
  (fuel : nat) (filePath task : string) (w : World C)
  (stderr message code raw out err : string)
  (fs1 fs2 fs3 fs4 : gmap string FsNode) (env1 env2 env4 : Env C) :
  spawn C ("node " +:+ filePath) (processCwd w) (fs w) (env w)
    = (ExecFail stderr message, fs1, env1) ->
  readFileFs filePath fs1 = Some code ->
  gemini C (FixFile code (diagnostic stderr message) task) env1
    = (OracleResponse (Some raw), env2) ->
  mkdirRecursive (Path.dirname filePath) fs1 = Some fs2 ->
  writeFileFs filePath (stripCodeFences (trim raw)) fs2 = Some fs3 ->
  spawn C ("node " +:+ filePath) (processCwd w) fs3 env2
    = (ExecOk out err, fs4, env4) ->
  fs4 !! filePath = fs3 !! filePath ->
  exists w',
    runFileAndFixIfError (S (S fuel)) filePath task w = Ok tt w'
    /\ events w'
       = events w ++ [EvExec ("node " +:+ filePath) None;
                      EvOracle (FixFile code (diagnostic stderr message) task);
                      EvExec ("node " +:+ filePath) None]
    /\ readFileFs filePath (fs w') = Some (stripCodeFences (trim raw))
    /\ state w' = state w.
Proof.
  intros Run1 Read Fix Mk Wr Run2 Keep.
  cbn [runFileAndFixIfError].
  cbv beta iota zeta delta [bind execAsync repairAndRetry readFile generateText
    writeCodeToFile mkdir writeFile setFs ret].
  rewrite Run1. cbn [fs env]. rewrite Read. cbn [fs env]. rewrite Fix.
  cbn [fs env]. rewrite Mk. cbn [fs env processCwd]. rewrite Wr.
  cbn [fs env processCwd]. rewrite Run2.
  eexists. split; [reflexivity|]. cbn. repeat split.
  - now rewrite <- !app_assoc.
  - unfold readFileFs. rewrite Keep.
    apply writeFileFs_read in Wr. exact Wr.
Qed.

Lemma repair_converges_after_one_cycle_witness :
  exists w',
    runFileAndFixIfError 2 "/w/app.js" "task" repairWorld = Ok tt w'
    /\ events w'
       = [EvExec "node /w/app.js" None;
          EvOracle (FixFile "v1();" "ReferenceError: v1 is not defined" "task");
          EvExec "node /w/app.js" None]
    /\ readFileFs "/w/app.js" (fs w') = Some "console.log('v2');"
    /\ state w' = state repairWorld.
Proof.
  eapply (repair_converges_after_one_cycle 0 "/w/app.js" "task" repairWorld
            "ReferenceError: v1 is not defined" "Command failed" "v1();"
            "```js
console.log('v2');
```" "ok" "");
    reflexivity.
Defined.

(** ** Deduplication: what is executed once, and what is not *)

Section Once.

Context {C : Collaborators}.











End Once.




(** ** Paths *)

Lemma split_nonempty sep s : split sep s <> [].
Proof.
  destruct s as [|c s]; simpl; [discriminate|].
  destruct (Ascii.eqb c sep); [discriminate|].
  destruct (split sep s); discriminate.
Qed.

(** Splitting distributes over a separator. *)
Lemma split_app_sep sep a b :
  split sep (a +:+ String sep b) = split sep a ++ split sep b.
Proof.
  induction a as [|c a IH]; simpl.
  - now rewrite Ascii.eqb_refl.
  - rewrite IH. destruct (Ascii.eqb c sep); [reflexivity|].
    destruct (split sep a) as [|h t] eqn:E; [|reflexivity].
    now destruct (split_nonempty sep a).
Qed.

Lemma split_without_slash name :
  includes "/" name = false -> split SLASH name = [name].
Proof.
  induction name as [|c name IH]; cbn [includes startsWith split]; [reflexivity|].
  intros H. apply orb_false_iff in H as [H1 H2].
  rewrite andb_true_r in H1. rewrite Ascii.eqb_sym in H1.
  fold SLASH in H1. rewrite H1. now rewrite (IH H2).
Qed.

Lemma append_assoc (a b c : string) : (a +:+ b) +:+ c = a +:+ (b +:+ c).
Proof.
  induction a as [|x a IH]; [reflexivity|].
  change (String x ((a +:+ b) +:+ c) = String x (a +:+ (b +:+ c))).
  now rewrite IH.
Qed.

Lemma join_snoc sep x l y :
  join sep ((x :: l) ++ [y]) = join sep (x :: l) +:+ sep +:+ y.
Proof.
  revert x. induction l as [|z l IH]; intros x; [reflexivity|].
  change (join sep ((x :: z :: l) ++ [y]))
    with (x +:+ sep +:+ join sep ((z :: l) ++ [y])).
  rewrite IH.
  change (join sep (x :: z :: l)) with (x +:+ sep +:+ join sep (z :: l)).
  now rewrite !append_assoc.
Qed.

Lemma normalizeSegments_snoc allow segs seg :
  Path.normalizeSegments allow (segs ++ [seg])
  = Path.normalizeStep allow (Path.normalizeSegments allow segs) seg.
Proof. unfold Path.normalizeSegments. now rewrite fold_left_app. Qed.

Lemma normalizeStep_simple allow stack name :
  Path.isSimpleName name = true ->
  Path.normalizeStep allow stack name = stack ++ [name].
Proof.
  unfold Path.isSimpleName, Path.normalizeStep. intros H.
  apply andb_true_iff in H as [H H3]. apply andb_true_iff in H as [H H2].
  apply andb_true_iff in H as [_ H1].
  apply negb_true_iff in H1, H2, H3. now rewrite H1, H2, H3.
Qed.

Lemma simple_name_split name :
  Path.isSimpleName name = true -> split SLASH name = [name].
Proof.
  unfold Path.isSimpleName. intros H.
  apply andb_true_iff in H as [H _]. apply andb_true_iff in H as [H _].
  apply andb_true_iff in H as [H _]. apply negb_true_iff in H.
  now apply split_without_slash.
Qed.

Lemma simple_name_relative name :
  Path.isSimpleName name = true -> Path.isAbsolute name = false.
Proof.
  intros H. pose proof (simple_name_split name H) as S.
  unfold Path.isAbsolute. destruct name as [|c name]; [reflexivity|].
  cbn [startsWith split] in *. rewrite Ascii.eqb_sym. fold SLASH.
  destruct (Ascii.eqb c SLASH); [|reflexivity].
  inversion S.
Qed.

(** The segments kept by the normalisation are never empty. *)
Lemma normalizeStep_nonempty allow stack seg :
  Forall (fun s => s <> EmptyString) stack ->
  Forall (fun s => s <> EmptyString) (Path.normalizeStep allow stack seg).
Proof.
  intros H. unfold Path.normalizeStep.
  destruct (String.eqb_spec seg "") as [->|Hne]; [exact H|].
  assert (Hpush : Forall (fun s => s <> EmptyString) (stack ++ [seg])).
  { apply Forall_app. split; [exact H | now repeat constructor]. }
  assert (Hpop : Forall (fun s => s <> EmptyString) (List.removelast stack)).
  { apply Forall_forall. intros x Hx. rewrite Forall_forall in H.
    apply H. apply list_elem_of_In. apply list_elem_of_In in Hx.
    clear -Hx. induction stack as [|a [|b l] IH]; simpl in *; auto.
    destruct Hx as [->|Hx]; auto. }
  destruct (seg =? ".")%string; simpl; [exact H|].
  destruct (seg =? "..")%string; [|exact Hpush].
  destruct (List.rev stack) as [|top rest]; [destruct allow; auto|].
  destruct (top =? "..")%string; [destruct allow; auto | exact Hpop].
Qed.

Lemma normalizeSegments_nonempty allow segs :
  Forall (fun s => s <> EmptyString) (Path.normalizeSegments allow segs).
Proof.
  unfold Path.normalizeSegments.
  assert (G : forall stack, Forall (fun s => s <> EmptyString) stack ->
              Forall (fun s => s <> EmptyString)
                (fold_left (Path.normalizeStep allow) segs stack)).
  { induction segs as [|seg segs IH]; simpl; intros stack H; [exact H|].
    apply IH. now apply normalizeStep_nonempty. }
  apply G. constructor.
Qed.

Lemma canonical_absolute D : Path.canonical D -> Path.isAbsolute D = true.
Proof. unfold Path.canonical. intros ->. reflexivity. Qed.

(** A canonical path is the root exactly when it has no segment. *)
Lemma canonical_root D :
  Path.canonical D ->
  (D =? "/")%string = true <-> Path.normalizeSegments false (split SLASH D) = [].
Proof.
  unfold Path.canonical. intros HD.
  pose proof (normalizeSegments_nonempty false (split SLASH D)) as N.
  destruct (Path.normalizeSegments false (split SLASH D)) as [|s r] eqn:E.
  - rewrite HD. simpl. split; reflexivity.
  - split; [|discriminate]. intros H. apply String.eqb_eq in H.
    rewrite H in HD. exfalso.
    inversion N as [|? ? Hs _]; subst.
    destruct r as [|s' r]; simpl in HD.
    + destruct s; [now apply Hs | discriminate].
    + destruct s; discriminate.
Qed.

(** Resolving a simple name against a canonical directory appends it, and
    the result is canonical again. *)
Lemma resolve_simple_name here D name :
  Path.canonical D -> Path.isSimpleName name = true ->
  Path.resolve here D name = Path.child D name
  /\ Path.canonical (Path.child D name).
Proof.
  intros HD Hn.
  pose proof (canonical_root D HD) as Hroot.
  set (segsD := Path.normalizeSegments false (split SLASH D)) in *.
  assert (Hjoin : "/" +:+ join "/" (segsD ++ [name]) = Path.child D name).
  { unfold Path.child. destruct segsD as [|s r] eqn:E.
    - destruct Hroot as [_ ->]; reflexivity.
    - destruct (D =? "/")%string eqn:R.
      + destruct Hroot as [Hroot _]. now specialize (Hroot eq_refl).
      + rewrite join_snoc. unfold Path.canonical in HD. fold segsD in HD.
        rewrite E in HD.
        rewrite <- (append_assoc "/" (join "/" (s :: r)) ("/" +:+ name)).
        now rewrite <- HD. }
  assert (Hsnoc : Path.normalizeSegments false (split SLASH D ++ [name])
                  = segsD ++ [name]).
  { now rewrite normalizeSegments_snoc, normalizeStep_simple. }
  split.
  - unfold Path.resolve.
    rewrite (simple_name_relative name Hn), (canonical_absolute D HD).
    cbn [existsb flat_map].
    rewrite (simple_name_relative name Hn), (canonical_absolute D HD).
    cbn [orb negb].
    rewrite (simple_name_split name Hn), app_nil_r, Hsnoc.
    exact Hjoin.
  - unfold Path.canonical. rewrite <- Hjoin at 1. do 2 f_equal.
    rewrite <- Hsnoc. unfold Path.child.
    destruct (D =? "/")%string eqn:R.
    + apply String.eqb_eq in R. subst D.
      change ("/" +:+ name) with ("" +:+ String SLASH name).
      rewrite split_app_sep, (simple_name_split name Hn).
      unfold Path.normalizeSegments. simpl.
      reflexivity.
    + change ("/" +:+ name) with (String SLASH name).
      now rewrite split_app_sep, (simple_name_split name Hn).
Qed.

(** The segments of a split hold no separator. *)
Lemma split_segments_without_slash p :
  Forall (fun seg => includes "/" seg = false) (split SLASH p).
Proof.
  induction p as [|c p IH]; cbn [split].
  - now repeat constructor.
  - destruct (Ascii.eqb c SLASH) eqn:E.
    + constructor; [reflexivity | exact IH].
    + destruct (split SLASH p) as [|h t] eqn:Es;
        [now destruct (split_nonempty SLASH p)|].
      inversion IH as [|? ? Hh Ht]; subst. constructor; [|exact Ht].
      cbn [includes startsWith]. rewrite Hh, andb_true_r, orb_false_r.
      rewrite Ascii.eqb_sym. exact E.
Qed.

Lemma removelast_Forall {A} (P : A -> Prop) l :
  Forall P l -> Forall P (List.removelast l).
Proof.
  induction 1 as [|x l Hx Hl IH]; [constructor|].
  cbn [List.removelast]. destruct l; [constructor|]. now constructor.
Qed.

(** Without leave to climb above the root, the normalisation keeps simple
    names only. *)
Lemma normalizeStep_simple_names stack seg :
  includes "/" seg = false ->
  Forall (fun s => Path.isSimpleName s = true) stack ->
  Forall (fun s => Path.isSimpleName s = true) (Path.normalizeStep false stack seg).
Proof.
  intros Hseg H. unfold Path.normalizeStep.
  destruct (seg =? "")%string eqn:E1; [exact H|].
  destruct (seg =? ".")%string eqn:E2; [exact H|]. cbn [orb].
  destruct (seg =? "..")%string eqn:E3.
  - destruct (List.rev stack) as [|top rest]; [exact H|].
    destruct (top =? "..")%string; [exact H | now apply removelast_Forall].
  - apply Forall_app. split; [exact H|]. repeat constructor.
    unfold Path.isSimpleName. now rewrite Hseg, E1, E2, E3.
Qed.

Lemma normalizeSegments_simple_names segs :
  Forall (fun seg => includes "/" seg = false) segs ->
  Forall (fun s => Path.isSimpleName s = true) (Path.normalizeSegments false segs).
Proof.
  unfold Path.normalizeSegments. intros H.
  assert (G : forall stack,
             Forall (fun s => Path.isSimpleName s = true) stack ->
             Forall (fun s => Path.isSimpleName s = true)
               (fold_left (Path.normalizeStep false) segs stack)).
  { induction H as [|seg segs Hseg _ IH]; intros stack Hs; [exact Hs|].
    cbn [fold_left]. apply IH. now apply normalizeStep_simple_names. }
  apply G. constructor.
Qed.

(** Simple names are left as they are. *)
Lemma normalizeSegments_of_simple_names segs stack :
  Forall (fun s => Path.isSimpleName s = true) segs ->
  fold_left (Path.normalizeStep false) segs stack = stack ++ segs.
Proof.
  intros H. revert stack.
  induction H as [|seg segs Hseg _ IH]; intros stack; cbn [fold_left].
  - now rewrite app_nil_r.
  - rewrite normalizeStep_simple by exact Hseg. rewrite IH.
    now rewrite <- app_assoc.
Qed.

Lemma split_join_simple_names seg segs :
  Forall (fun s => Path.isSimpleName s = true) (seg :: segs) ->
  split SLASH (join "/" (seg :: segs)) = seg :: segs.
Proof.
  revert seg. induction segs as [|y segs IH]; intros seg H;
    inversion H as [|? ? Hseg Hrest]; subst.
  - now apply simple_name_split.
  - change (join "/" (seg :: y :: segs))
      with (seg +:+ String SLASH (join "/" (y :: segs))).
    rewrite split_app_sep, (simple_name_split seg Hseg), (IH y Hrest).
    reflexivity.
Qed.

(** A slash followed by simple names joined by slashes is canonical. *)
Lemma canonical_of_simple_names segs :
  Forall (fun s => Path.isSimpleName s = true) segs ->
  Path.canonical ("/" +:+ join "/" segs).
Proof.
  intros H. unfold Path.canonical. do 2 f_equal.
  change ("/" +:+ join "/" segs) with ("" +:+ String SLASH (join "/" segs)).
  rewrite split_app_sep. cbn [split app]. unfold Path.normalizeSegments.
  cbn [fold_left]. change (Path.normalizeStep false [] "") with (@nil string).
  destruct segs as [|seg segs]; [reflexivity|].
  rewrite (split_join_simple_names seg segs H).
  now rewrite normalizeSegments_of_simple_names.
Qed.

(** [path.resolve] returns canonical paths whenever one of the paths it
    is given is absolute. *)
Lemma resolve_canonical here from to :
  Path.isAbsolute from = true ->
  Path.canonical (Path.resolve here from to).
Proof.
  intros Hfrom. unfold Path.resolve.
  set (parts := if Path.isAbsolute to then [to]
                else if Path.isAbsolute from then [from; to] else [here; from; to]).
  assert (Habs : existsb Path.isAbsolute parts = true).
  { subst parts. destruct (Path.isAbsolute to) eqn:E.
    - cbn [existsb]. now rewrite E.
    - rewrite Hfrom. cbn [existsb]. now rewrite Hfrom. }
  rewrite Habs. cbn [negb].
  apply canonical_of_simple_names, normalizeSegments_simple_names.
  apply Forall_flat_map, Forall_forall. intros p _.
  apply split_segments_without_slash.
Qed.

(** ** Directory changes *)

Section Directory.

Context {C : Collaborators}.

Lemma blockedByFile_head p (files : gmap string FsNode) :
  blockedByFile p files = false -> isFile p files = false.
Proof.
  unfold blockedByFile. cbn [existsb]. intros H.
  now apply orb_false_iff in H as [H _].
Qed.

Lemma mkdirRecursive_creates p (files files' : gmap string FsNode) :
  mkdirRecursive p files = Some files' -> isDirectory p files' = true.
Proof.
  unfold mkdirRecursive. destruct (blockedByFile p files); [discriminate|].
  intros [= <-]. cbn [fold_right]. unfold isDirectory.
  now rewrite lookup_insert_eq.
Qed.

(** A directory change that no regular file stands in the way of. *)
Lemma changeDirectory_enters cmd targetDir (w : World C) :
  let newPath := Path.resolve (processCwd w) (currentDir (state w)) targetDir in
  blockedByFile newPath (fs w) = false ->
  exists files',
    changeDirectory cmd targetDir w =
    Ok Continue
      {| state := {| currentDir := newPath;
                     executedCommands := executedCommands (state w) ++ [cmd];
                     projectRoot := projectRoot (state w) |};
         fs := files'; processCwd := newPath; env := env w; events := events w |}
    /\ isDirectory newPath files' = true.
Proof.
  intros newPath Hfree.
  unfold changeDirectory.
  cbv beta iota zeta delta [bind tryCatch getState cwd fsExists ret].
  fold newPath.
  destruct (existsSync newPath (fs w)) eqn:Ex; cbn [negb].
  - assert (Hdir : isDirectory newPath (fs w) = true).
    { apply blockedByFile_head in Hfree. unfold existsSync, isFile, isDirectory in *.
      destruct (fs w !! newPath) as [[|content]|]; congruence. }
    exists (fs w).
    cbv beta iota zeta delta [bind setCurrentDir getState setState chdir
      pushExecuted ret]. cbn [fs state]. rewrite Hdir. cbn. now split.
  - unfold mkdir at 1. destruct (mkdirRecursive newPath (fs w)) as [files'|] eqn:Mk.
    + pose proof (mkdirRecursive_creates _ _ _ Mk) as Hdir.
      exists files'.
      cbv beta iota zeta delta [bind setFs setCurrentDir getState setState chdir
        pushExecuted ret]. cbn [fs state]. rewrite Hdir. cbn. now split.
    + unfold mkdirRecursive in Mk. now rewrite Hfree in Mk.
Qed.

Lemma bind_first_event {A B} (m : M C A) (k : A -> M C B) e (w : World C) :
  events (worldOf (m w)) = events w ++ [e] ->
  (forall a, respects (traceExt (fun _ => True)) (k a)) ->
  exists rest, events (worldOf (bind m k w)) = events w ++ e :: rest.
Proof.
  intros Hm Hk. unfold bind.
  destruct (m w) as [a w1|err w1|w1]; simpl in Hm;
    try (exists []; exact Hm).
  destruct (Hk a w1) as (new & E & _). exists new.
  rewrite E, Hm. now rewrite <- app_assoc.
Qed.

Lemma generateFileContent_event filePath task (w : World C) :
  events (worldOf (generateFileContent filePath task w))
  = events w ++ [EvOracle (GenerateFile filePath task)].
Proof.
  unfold generateFileContent, bind, generateText.
  now destruct (gemini C _ _) as [[reason|[text|]] env'].
Qed.

(** A file creation starts by asking the oracle for the file at the path
    resolved against the current directory. *)
Lemma createFile_first_request fuel cmd filePath task (w : World C) :
  exists rest,
    events (worldOf (createFile fuel cmd filePath task w))
    = events w
      ++ EvOracle (GenerateFile
                     (Path.resolve (processCwd w) (currentDir (state w)) filePath)
                     task) :: rest.
Proof.
  set (fullPath := Path.resolve (processCwd w) (currentDir (state w)) filePath).
  change (createFile fuel cmd filePath task w)
    with (bind (generateFileContent fullPath task)
            (fun code =>
               bind (writeCodeToFile fullPath code) (fun _ =>
               bind (runFileAndFixIfError fuel fullPath task) (fun _ =>
               bind (pushExecuted cmd) (fun _ => ret Continue)))) w).
  apply bind_first_event; [apply generateFileContent_event|].
  intros code.
  apply respects_bind; [apply traceExt_trans| |].
  { apply respects_writeCodeToFile; [apply traceExt_trans | trace_any ..]. }
  intros _. apply respects_bind; [apply traceExt_trans| |].
  { apply respects_runFileAndFixIfError;
      [apply traceExt_refl | apply traceExt_trans | trace_any ..]. }
  intros _. apply respects_bind; [apply traceExt_trans| |]; [trace_any|].
  intros _ w0. apply traceExt_refl.
Qed.

Lemma sameDir_refl (w : World C) : sameDir w w.
Proof. reflexivity. Qed.

Lemma sameDir_trans (w1 w2 w3 : World C) :
  sameDir w1 w2 -> sameDir w2 w3 -> sameDir w1 w3.
Proof. unfold sameDir. congruence. Qed.

Lemma sameDir_createFile fuel cmd filePath task :
  respects (@sameDir C) (createFile fuel cmd filePath task).
Proof.
  apply respects_createFile;
    [ apply sameDir_refl | apply sameDir_trans
    | run_primitive; reflexivity .. ].
Qed.

Lemma sameDir_runShell cmd : respects (@sameDir C) (runShell cmd).
Proof.
  apply respects_runShell;
    [ apply sameDir_refl | apply sameDir_trans
    | run_primitive; reflexivity .. ].
Qed.

(** However a directory change ends, the current directory is the old one
    or the resolved target. *)
Lemma changeDirectory_currentDir cmd targetDir (w : World C) :
  let w' := worldOf (changeDirectory cmd targetDir w) in
  currentDir (state w') = currentDir (state w)
  \/ currentDir (state w')
     = Path.resolve (processCwd w) (currentDir (state w)) targetDir.
Proof. run_steps; auto. Qed.

(** The current directory stays a resolved absolute path. *)
Lemma handleCommand_keeps_canonical fuel cmd task (w : World C) :
  Path.canonical (currentDir (state w)) ->
  Path.canonical (currentDir (state (worldOf (handleCommand fuel cmd task w)))).
Proof.
  intros Hcan.
  destruct (arrayIncludes cmd (executedCommands (state w))) eqn:E.
  - now rewrite handleCommand_skip.
  - rewrite handleCommand_fresh by exact E.
    destruct (dispatch cmd) as [targetDir|filePath|c].
    + destruct (changeDirectory_currentDir cmd targetDir w) as [-> | ->];
        [exact Hcan|].
      apply resolve_canonical. now apply canonical_absolute.
    + now rewrite (sameDir_createFile fuel cmd filePath task w).
    + now rewrite (sameDir_runShell c w).
Qed.

Lemma executePlan_keeps_canonical fuel plan task (w : World C) :
  Path.canonical (currentDir (state w)) ->
  Path.canonical (currentDir (state (worldOf (executePlan fuel plan task w)))).
Proof.
  unfold executePlan. generalize (candidateCommands plan) as commands.
  intros commands. revert w.
  induction commands as [|cmd rest IH]; intros w Hcan; [exact Hcan|].
  cbn [executeCommands]. unfold bind.
  pose proof (handleCommand_keeps_canonical fuel cmd task w Hcan) as H.
  destruct (handleCommand fuel cmd task w) as [[|] w1|e w1|w1];
    cbn [worldOf] in *; auto.
Qed.

End Directory.

(** A directory change onto a regular file fails: nothing is created, the
    plan is aborted, and the current directory of the execution state has
    nevertheless been set to the target. *)
Lemma cd_onto_file_fails :
  executePlan 1 returningPlan "task" blockedWorld = Ok false afterBlocked
  /\ isDirectory "/w/sub" (fs afterBlocked) = false
  /\ currentDir (state afterBlocked) = "/w/sub"
  /\ processCwd afterBlocked = "/w"
  /\ executedCommands (state afterBlocked) = []
  /\ events afterBlocked = [].
Proof. repeat split; vm_compute; reflexivity. Qed.

(** C9, as the specification states it, fails when the line has been
    executed before: after [cd sub] and [cd ..] the current directory is
    [/w] again, and a later [cd sub] is skipped by the history check, so
    the current directory stays [/w] and the file is created there. *)
Lemma repeated_cd_is_skipped :
  executePlan 1 leavingPlan "task" revisitWorld = Ok true afterLeaving
  /\ currentDir (state afterLeaving) = "/w"
  /\ executedCommands (state afterLeaving) = ["cd sub"; "cd .."]
  /\ executePlan 1 returningPlan "task" afterLeaving = Ok true afterReturning
  /\ currentDir (state afterReturning) = "/w"
  /\ currentDir (state afterReturning) <> "/w/sub"
  /\ events afterReturning = [EvOracle (GenerateFile "/w/app.js" "task");
                              EvExec "node /w/app.js" None]
  /\ existsSync "/w/app.js" (fs afterReturning) = true
  /\ existsSync "/w/sub/app.js" (fs afterReturning) = false.
Proof. repeat split; try (vm_compute; reflexivity). vm_compute. discriminate. Qed.

(** C9 (amended): when the line [cd sub] is not yet in the history, the
    current directory [D] is a resolved absolute path and no regular file
    sits at [D/sub] or above it, the executor handles the line by making
    [D/sub] a directory on disk, entering it (current directory and
    process working directory) and recording the line; a file creation
    handled next asks for the file at its path resolved against [D/sub],
    which for a plain file name is [D/sub/name]. *)
Theorem cd_sub_enters_directory {C : Collaborators}
  (fuel : nat) (task D : string) (w : World C) :
  currentDir (state w) = D ->
  Path.canonical D ->
  arrayIncludes "cd sub" (executedCommands (state w)) = false ->
  blockedByFile (Path.child D "sub") (fs w) = false ->
  exists w',
    handleCommand fuel "cd sub" task w = Ok Continue w'
    /\ isDirectory (Path.child D "sub") (fs w') = true
    /\ currentDir (state w') = Path.child D "sub"
    /\ processCwd w' = Path.child D "sub"
    /\ executedCommands (state w') = executedCommands (state w) ++ ["cd sub"]
    /\ (forall cmd filePath,
          dispatch cmd = FileCreation filePath ->
          arrayIncludes cmd (executedCommands (state w')) = false ->
          exists rest,
            events (worldOf (handleCommand fuel cmd task w'))
            = events w'
              ++ EvOracle (GenerateFile
                             (Path.resolve (Path.child D "sub") (Path.child D "sub")
                                filePath) task) :: rest)
    /\ (forall here name,
          Path.isSimpleName name = true ->
          Path.resolve here (Path.child D "sub") name
          = Path.child (Path.child D "sub") name).
Proof.
  intros HD Hcan Hfresh Hfree.
  destruct (resolve_simple_name (processCwd w) D "sub" Hcan eq_refl) as [Hres Hcan'].
  rewrite handleCommand_fresh by exact Hfresh.
  change (dispatch "cd sub") with (DirectoryChange "sub"). cbv beta iota.
  destruct (changeDirectory_enters "cd sub" "sub" w) as (files' & E & Hdir).
  { rewrite HD, Hres. exact Hfree. }
  rewrite HD, Hres in E, Hdir. rewrite E.
  eexists. split; [reflexivity|]. cbn [state fs processCwd currentDir executedCommands].
  repeat split; auto.
  - intros cmd filePath Hd Hnew.
    rewrite handleCommand_fresh by exact Hnew. rewrite Hd.
    apply createFile_first_request.
  - intros here name Hname.
    now destruct (resolve_simple_name here _ name Hcan' Hname).
Qed.

Lemma cd_sub_enters_directory_witness :
  exists w',
    handleCommand 1 "cd sub" "task" revisitWorld = Ok Continue w'
    /\ isDirectory "/w/sub" (fs w') = true
    /\ currentDir (state w') = "/w/sub"
    /\ processCwd w' = "/w/sub"
    /\ executedCommands (state w') = ["cd sub"]
    /\ (forall cmd filePath,
          dispatch cmd = FileCreation filePath ->
          arrayIncludes cmd (executedCommands (state w')) = false ->
          exists rest,
            events (worldOf (handleCommand 1 cmd "task" w'))
            = events w'
              ++ EvOracle (GenerateFile (Path.resolve "/w/sub" "/w/sub" filePath)
                             "task") :: rest)
    /\ (forall here name,
          Path.isSimpleName name = true ->
          Path.resolve here "/w/sub" name = Path.child "/w/sub" name).
Proof.
  apply (cd_sub_enters_directory 1 "task" "/w" revisitWorld); reflexivity.
Defined.

(** ** The Session Driver *)

Section Session.

Context {C : Collaborators}.

Lemma planningCalls_app l l' :
  planningCalls (l ++ l') = planningCalls l + planningCalls l'.
Proof. unfold planningCalls. now rewrite List.filter_app, length_app. Qed.

Lemma planningCalls_none new :
  Forall notPlanning new -> planningCalls new = 0.
Proof.
  unfold planningCalls. induction 1 as [|e new He _ IH]; [reflexivity|].
  cbn [List.filter]. unfold notPlanning in He. now rewrite He.
Qed.

Lemma traceExt_no_planning (w w' : World C) :
  traceExt notPlanning w w' ->
  planningCalls (events w') = planningCalls (events w).
Proof.
  intros (new & E & F). rewrite E, planningCalls_app, (planningCalls_none _ F). lia.
Qed.

(** Asking for a plan is one planning call, whatever comes back. *)
Lemma getRefinedPlan_calls task (w : World C) :
  planningCalls (events (worldOf (getRefinedPlan task w)))
  = planningCalls (events w) + 1.
Proof.
  unfold getRefinedPlan, bind, getState, generateText.
  destruct (gemini C _ _) as [[reason|[text|]] env'];
    cbn [worldOf events ret]; now rewrite planningCalls_app.
Qed.

Lemma promptWith_calls {A} p (answer : Env C -> A * Env C) (w : World C) :
  exists a w', promptWith p answer w = Ok a w'
    /\ planningCalls (events w') = planningCalls (events w).
Proof.
  unfold promptWith. destruct (answer (env w)) as [a env'].
  do 2 eexists. split; [reflexivity|].
  cbn [events]. rewrite planningCalls_app. cbn. lia.
Qed.

Lemma executePlan_calls fuel plan task (w : World C) :
  planningCalls (events (worldOf (executePlan fuel plan task w)))
  = planningCalls (events w).
Proof. apply traceExt_no_planning, noPlanning_executePlan. Qed.

Lemma sessionLoop_at_ceiling fuel iterations attempt task (w : World C) :
  maxAttempts <= attempt ->
  sessionLoop fuel iterations attempt task w = Ok MaximumAttemptsReached w.
Proof.
  intros H. destruct iterations; cbn [sessionLoop];
    (destruct (Nat.ltb_spec attempt maxAttempts); [lia | reflexivity]).
Qed.

Lemma failedAttempt_inv fuel task task' (w w' : World C) :
  failedAttempt fuel task w = Some (task', w') ->
  exists plan w1 w2 w3 feedback,
    getRefinedPlan task w = Ok plan w1
    /\ promptWith (AskConfirm plan) (answerConfirm C plan) w1 = Ok true w2
    /\ executePlan fuel plan task w2 = Ok false w3
    /\ promptWith AskFeedback (answerFeedback C) w3 = Ok feedback w'
    /\ task' = task +:+ "
Error: " +:+ feedback.
Proof.
  unfold failedAttempt.
  destruct (getRefinedPlan task w) as [plan w1|e w1|w1] eqn:E1; try discriminate.
  destruct (promptWith (AskConfirm plan) (answerConfirm C plan) w1)
    as [[|] w2|e w2|w2] eqn:E2; try discriminate.
  destruct (executePlan fuel plan task w2) as [[|] w3|e w3|w3] eqn:E3;
    try discriminate.
  destruct (promptWith AskFeedback (answerFeedback C) w3)
    as [feedback w4|e w4|w4] eqn:E4; try discriminate.
  intros [= <- <-]. now exists plan, w1, w2, w3, feedback.
Qed.

(** A failed attempt takes the loop to its next turn, with the feedback
    appended to the task. *)
Lemma sessionLoop_failed_attempt fuel iterations attempt task task' (w w' : World C) :
  attempt < maxAttempts ->
  failedAttempt fuel task w = Some (task', w') ->
  sessionLoop fuel (S iterations) attempt task w
  = sessionLoop fuel iterations (attempt + 1) task' w'.
Proof.
  intros Hlt H.
  apply failedAttempt_inv in H
    as (plan & w1 & w2 & w3 & feedback & Hplan & Hconf & Hexec & Hfb & ->).
  cbn [sessionLoop].
  destruct (Nat.ltb_spec attempt maxAttempts); [|lia].
  unfold bind at 1. rewrite Hplan.
  unfold bind at 1. rewrite Hconf. cbn [negb].
  unfold bind at 1. rewrite Hexec.
  unfold bind at 1. now rewrite Hfb.
Qed.

Lemma sessionLoop_failed_attempts fuel k iterations attempt task task' (w w' : World C) :
  failedAttempts fuel k task w = Some (task', w') ->
  attempt + k <= maxAttempts ->
  sessionLoop fuel (k + iterations) attempt task w
  = sessionLoop fuel iterations (attempt + k) task' w'.
Proof.
  revert attempt task w.
  induction k as [|k IH]; intros attempt task w H Hle; cbn [failedAttempts] in H.
  - inversion H; subst. now rewrite Nat.add_0_r.
  - destruct (failedAttempt fuel task w) as [[task1 w1]|] eqn:E; [|discriminate].
    cbn [Nat.add].
    rewrite (sessionLoop_failed_attempt fuel (k + iterations) attempt task task1 w w1);
      [|unfold maxAttempts in *; lia|exact E].
    rewrite (IH _ _ _ H) by lia. f_equal. lia.
Qed.

Lemma failedAttempt_calls fuel task task' (w w' : World C) :
  failedAttempt fuel task w = Some (task', w') ->
  planningCalls (events w') = planningCalls (events w) + 1.
Proof.
  intros H. apply failedAttempt_inv in H
    as (plan & w1 & w2 & w3 & feedback & Hplan & Hconf & Hexec & Hfb & _).
  pose proof (getRefinedPlan_calls task w) as P1. rewrite Hplan in P1.
  destruct (promptWith_calls (AskConfirm plan) (answerConfirm C plan) w1)
    as (a & wa & Ea & P2). rewrite Hconf in Ea. inversion Ea; subst.
  pose proof (executePlan_calls fuel plan task wa) as P3. rewrite Hexec in P3.
  destruct (promptWith_calls AskFeedback (answerFeedback C) w3)
    as (b & wb & Eb & P4). rewrite Hfb in Eb. inversion Eb; subst.
  cbn [worldOf] in *. lia.
Qed.

Lemma failedAttempts_calls fuel k task task' (w w' : World C) :
  failedAttempts fuel k task w = Some (task', w') ->
  planningCalls (events w') = planningCalls (events w) + k.
Proof.
  revert task w. induction k as [|k IH]; intros task w H; cbn [failedAttempts] in H.
  - inversion H; subst. lia.
  - destruct (failedAttempt fuel task w) as [[task1 w1]|] eqn:E; [|discriminate].
    apply failedAttempt_calls in E. apply IH in H. lia.
Qed.

Lemma sessionStart_calls (w w0 : World C) rawTask :
  sessionStart w = Ok rawTask w0 ->
  planningCalls (events w0) = planningCalls (events w).
Proof.
  unfold sessionStart, bind, cwd, setState, promptWith. cbn [env events].
  destruct (answerTask C (env w)) as [a env']. intros [= _ <-].
  cbn [events]. rewrite planningCalls_app. cbn. lia.
Qed.

(** No run of the loop asks for more plans than there are attempts left. *)
Lemma sessionLoop_calls_bounded fuel iterations attempt task (w : World C) :
  planningCalls (events (worldOf (sessionLoop fuel iterations attempt task w)))
  <= planningCalls (events w) + (maxAttempts - attempt).
Proof.
  revert attempt task w.
  induction iterations as [|n IH]; intros attempt task w; cbn [sessionLoop];
    destruct (Nat.ltb_spec attempt maxAttempts) as [Hlt|Hge];
    try (cbn [worldOf ret]; lia).
  unfold maxAttempts in *.
  unfold bind at 1.
  pose proof (getRefinedPlan_calls task w) as P1.
  destruct (getRefinedPlan task w) as [plan w1|e w1|w1]; cbn [worldOf] in *;
    try lia.
  unfold bind at 1.
  destruct (promptWith_calls (AskConfirm plan) (answerConfirm C plan) w1)
    as (confirm & w2 & -> & P2).
  destruct confirm; cbn [negb]; [|cbn [worldOf ret]; lia].
  unfold bind at 1.
  pose proof (executePlan_calls fuel plan task w2) as P3.
  destruct (executePlan fuel plan task w2) as [[|] w3|e w3|w3];
    cbn [worldOf ret] in *; try lia.
  unfold bind at 1.
  destruct (promptWith_calls AskFeedback (answerFeedback C) w3)
    as (feedback & w4 & -> & P4).
  specialize (IH (attempt + 1) (task +:+ "
Error: " +:+ feedback) w4). lia.
Qed.

(** No run of [main], however it ends, makes more than three planning
    calls. *)
Lemma main_calls_bounded fuel (w : World C) :
  planningCalls (events (worldOf (main fuel w)))
  <= planningCalls (events w) + maxAttempts.
Proof.
  unfold main, tryCatch, mainBody. unfold bind at 1.
  destruct (sessionStart w) as [rawTask w0|e w0|w0] eqn:E.
  - apply sessionStart_calls in E.
    destruct (String.eqb (toLowerCase rawTask) "exit"); [cbn [worldOf ret]; lia|].
    pose proof (sessionLoop_calls_bounded fuel maxAttempts 0 rawTask w0) as B.
    destruct (sessionLoop fuel maxAttempts 0 rawTask w0);
      cbn [worldOf ret] in *; lia.
  - revert E. unfold sessionStart, bind, cwd, setState, promptWith.
    destruct (answerTask C _); discriminate.
  - revert E. unfold sessionStart, bind, cwd, setState, promptWith.
    destruct (answerTask C _); discriminate.
Qed.

(** The [iterations] of the model never run out before the loop condition
    stops the loop: when the loop ends for lack of fuel, the fuel ran out
    inside the Plan Executor. *)
Lemma sessionLoop_out_of_fuel fuel iterations attempt task (w w' : World C) :
  maxAttempts <= attempt + iterations ->
  sessionLoop fuel iterations attempt task w = OutOfFuel w' ->
  exists plan task1 w1, executePlan fuel plan task1 w1 = OutOfFuel w'.
Proof.
  revert attempt task w.
  induction iterations as [|n IH]; intros attempt task w Hle; cbn [sessionLoop];
    destruct (Nat.ltb_spec attempt maxAttempts) as [Hlt|Hge];
    try discriminate; try lia.
  unfold bind at 1.
  destruct (getRefinedPlan task w) as [plan w1|e w1|w1] eqn:E1; try discriminate.
  { unfold bind at 1.
    destruct (promptWith_calls (AskConfirm plan) (answerConfirm C plan) w1)
      as (confirm & w2 & -> & _).
    destruct confirm; cbn [negb]; [|discriminate].
    unfold bind at 1.
    destruct (executePlan fuel plan task w2) as [[|] w3|e w3|w3] eqn:E3;
      try discriminate.
    - unfold bind at 1.
      destruct (promptWith_calls AskFeedback (answerFeedback C) w3)
        as (feedback & w4 & -> & _).
      apply IH. lia.
    - intros [= <-]. now exists plan, task, w2. }
  revert E1. unfold getRefinedPlan, bind, getState, generateText.
  destruct (gemini C _ _) as [[reason|[text|]] env']; discriminate.
Qed.

(** [main] starts with the current directory of the execution state set
    to the working directory of the process. *)
Lemma sessionStart_in_sync (w w0 : World C) rawTask :
  sessionStart w = Ok rawTask w0 ->
  processCwd w0 = currentDir (state w0) /\ executedCommands (state w0) = [].
Proof.
  unfold sessionStart, bind, cwd, setState, promptWith. cbn [env events].
  destruct (answerTask C (env w)) as [a env']. intros [= _ <-]. now split.
Qed.

Lemma executeCommands_app fuel pre rest task (w w1 : World C) :
  executeCommands fuel pre task w = Ok true w1 ->
  executeCommands fuel (pre ++ rest) task w = executeCommands fuel rest task w1.
Proof.
  revert w. induction pre as [|cmd pre IH]; intros w H.
  - cbn in H. unfold ret in H. now inversion H.
  - cbn [app executeCommands] in *. unfold bind in *.
    destruct (handleCommand fuel cmd task w) as [[|] w'|e w'|w']; try discriminate.
    now apply IH.
Qed.

End Session.

(** C8: after three failed attempts in a row, each with the operator's
    feedback, the run ends with the report that the maximum number of
    attempts was reached, and exactly three planning calls were made in
    it.  (No run at all makes more than three: [main_calls_bounded].) *)
Theorem attempt_ceiling {C : Collaborators}
  (fuel : nat) (rawTask task3 : string) (w w0 w3 : World C) :
  sessionStart w = Ok rawTask w0 ->
  String.eqb (toLowerCase rawTask) "exit" = false ->
  failedAttempts fuel 3 rawTask w0 = Some (task3, w3) ->
  main fuel w = Ok MaximumAttemptsReached w3
  /\ planningCalls (events w3) = planningCalls (events w) + 3
  /\ (forall fuel' (w' : World C),
        planningCalls (events (worldOf (main fuel' w')))
        <= planningCalls (events w') + 3).
Proof.
  intros Hstart Hexit Hfail. repeat split.
  - unfold main, tryCatch, mainBody. unfold bind at 1. rewrite Hstart, Hexit.
    change maxAttempts with (3 + 0) at 1.
    rewrite (sessionLoop_failed_attempts fuel 3 0 0 _ _ _ _ Hfail)
      by (unfold maxAttempts; lia).
    now rewrite sessionLoop_at_ceiling by (unfold maxAttempts; lia).
  - apply failedAttempts_calls in Hfail. apply sessionStart_calls in Hstart. lia.
  - intros fuel' w'. apply main_calls_bounded.
Qed.

Lemma attempt_ceiling_witness :
  main 1 failingWorld = Ok MaximumAttemptsReached (worldOf (main 1 failingWorld))
  /\ planningCalls (events (worldOf (main 1 failingWorld)))
     = planningCalls (events failingWorld) + 3
  /\ (forall fuel' (w' : World scripted),
        planningCalls (events (worldOf (main fuel' w')))
        <= planningCalls (events w') + 3).
Proof.
  apply (attempt_ceiling 1 "build an app" "build an app
Error: f1
Error: f2
Error: f3" failingWorld (worldOf (sessionStart failingWorld))).
  - vm_compute. reflexivity.
  - vm_compute. reflexivity.
  - vm_compute. reflexivity.
Defined.

(** C4, as the specification states it, fails: when the generation request
    is rejected, or answered without text, the executor does not return
    [success = false]; the error leaves [executePlan] and [main], the
    handler of line 271 reports it, and the run is over after a single
    planning call, although the operator and the oracle had more answers
    ready. *)
Lemma oracle_failure_ends_the_run :
  (main 1 fatalWorld
   = Ok (FatalError (OracleError "503 Service Unavailable")) (worldOf (main 1 fatalWorld))
   /\ events (worldOf (main 1 fatalWorld))
      = [EvPrompt AskTask;
         EvOracle (RefinePlan "/w" None [] "build an app");
         EvPrompt (AskConfirm "touch app.js");
         EvOracle (GenerateFile "/w/app.js" "build an app")]
   /\ planningCalls (events (worldOf (main 1 fatalWorld))) = 1)
  /\ (main 1 noTextWorld
      = Ok (FatalError NoResponseText) (worldOf (main 1 noTextWorld))
      /\ planningCalls (events (worldOf (main 1 noTextWorld))) = 1)
  /\ (forall w', executePlan 1 "touch app.js" "build an app" fatalConfirmed
                 <> Ok false w').
Proof.
  repeat split; try (vm_compute; reflexivity).
  intros w'. vm_compute. discriminate.
Qed.

(** C4 (amended): when the oracle call made for a file creation fails
    (the service rejects it, or its answer has no text), [executePlan]
    does not return at all: the error propagates out of it and out of the
    loop of the Session Driver, the handler of [main] reports it as fatal,
    and nothing is done after the failed call: no feedback is asked for
    and no further plan is requested. *)
Theorem oracle_failure_is_fatal {C : Collaborators}
  (fuel k : nat) (rawTask task plan cmd filePath : string) (pre post : list string)
  (err : Error) (w w0 wk w1 w2 w3 w4 : World C) :
  sessionStart w = Ok rawTask w0 ->
  String.eqb (toLowerCase rawTask) "exit" = false ->
  failedAttempts fuel k rawTask w0 = Some (task, wk) ->
  k < 3 ->
  getRefinedPlan task wk = Ok plan w1 ->
  promptWith (AskConfirm plan) (answerConfirm C plan) w1 = Ok true w2 ->
  candidateCommands plan = pre ++ cmd :: post ->
  executeCommands fuel pre task w2 = Ok true w3 ->
  arrayIncludes cmd (executedCommands (state w3)) = false ->
  dispatch cmd = FileCreation filePath ->
  generateText
    (GenerateFile (Path.resolve (processCwd w3) (currentDir (state w3)) filePath) task)
    w3 = Throw err w4 ->
  executePlan fuel plan task w2 = Throw err w4
  /\ main fuel w = Ok (FatalError err) w4
  /\ events w4
     = events w3
       ++ [EvOracle (GenerateFile
                       (Path.resolve (processCwd w3) (currentDir (state w3)) filePath)
                       task)].
Proof.
  intros Hstart Hexit Hfail Hk Hplan Hconf Hcmds Hpre Hnew Hd Hgen.
  assert (Hexec : executePlan fuel plan task w2 = Throw err w4).
  { unfold executePlan. rewrite Hcmds.
    rewrite (executeCommands_app _ _ _ _ _ _ Hpre).
    cbn [executeCommands]. unfold bind at 1.
    rewrite handleCommand_fresh by exact Hnew. rewrite Hd.
    unfold createFile. cbv beta iota zeta delta [bind getState cwd].
    unfold generateFileContent, bind. now rewrite Hgen. }
  repeat split.
  - exact Hexec.
  - unfold main, tryCatch, mainBody. unfold bind at 1. rewrite Hstart, Hexit.
    replace maxAttempts with (k + S (2 - k)) by (unfold maxAttempts; lia).
    rewrite (sessionLoop_failed_attempts fuel k _ 0 _ _ _ _ Hfail)
      by (unfold maxAttempts; lia).
    cbn [sessionLoop Nat.add].
    destruct (Nat.ltb_spec k maxAttempts) as [_|Hge];
      [|unfold maxAttempts in Hge; lia].
    unfold bind at 1. rewrite Hplan. unfold bind at 1. rewrite Hconf.
    cbn [negb]. unfold bind at 1. now rewrite Hexec.
  - revert Hgen. unfold generateText.
    destruct (gemini C _ _) as [[reason|[text|]] env']; intros [= _ <-];
      reflexivity.
Qed.

Lemma oracle_failure_is_fatal_witness :
  executePlan 1 "touch app.js" "build an app" fatalConfirmed
  = Throw (OracleError "503 Service Unavailable") fatalEnd
  /\ main 1 fatalWorld
     = Ok (FatalError (OracleError "503 Service Unavailable")) fatalEnd
  /\ events fatalEnd
     = events fatalConfirmed
       ++ [EvOracle (GenerateFile
                       (Path.resolve (processCwd fatalConfirmed)
                          (currentDir (state fatalConfirmed)) "app.js")
                       "build an app")].
Proof.
  apply (oracle_failure_is_fatal 1 0 "build an app" "build an app" "touch app.js"
           "touch app.js" "app.js" [] [] (OracleError "503 Service Unavailable")
           fatalWorld fatalStarted fatalStarted fatalPlanned fatalConfirmed
           fatalConfirmed fatalEnd).
  - vm_compute. reflexivity.
  - vm_compute. reflexivity.
  - vm_compute. reflexivity.
  - lia.
  - vm_compute. reflexivity.
  - vm_compute. reflexivity.
  - vm_compute. reflexivity.
  - vm_compute. reflexivity.
  - vm_compute. reflexivity.
  - vm_compute. reflexivity.
  - vm_compute. reflexivity.
Defined.

(** * Further properties of the code *)

(** ** Text utilities *)

Lemma startsWith_refl p : startsWith p p = true.
Proof.
  induction p as [|c p IH]; [reflexivity|].
  cbn [startsWith]. now rewrite Ascii.eqb_refl, IH.
Qed.

Lemma startsWith_app p s : startsWith p (p +:+ s) = true.
Proof.
  induction p as [|c p IH]; [reflexivity|].
  change (String c p +:+ s) with (String c (p +:+ s)).
  cbn [startsWith]. now rewrite Ascii.eqb_refl, IH.
Qed.

Lemma endsWith_includes p s : endsWith p s = true -> includes p s = true.
Proof.
  induction s as [|c s IH]; cbn [endsWith includes]; intros H;
    apply orb_true_iff in H as [H|H]; try discriminate.
  - apply String.eqb_eq in H. subst p. reflexivity.
  - apply String.eqb_eq in H. subst p. now rewrite startsWith_refl.
  - rewrite (IH H). apply orb_true_r.
Qed.

Lemma includes_startsWith p s : includes p s = false -> startsWith p s = false.
Proof.
  destruct s; cbn [includes]; intros H; now apply orb_false_iff in H as [H _].
Qed.

(** X1: whatever the text, [stripCodeFences] returns a text that [trim]
    leaves as it is, and that is never longer than its argument. *)
Theorem stripCodeFences_trimmed_and_shorter (code : string) :
  trim (stripCodeFences code) = stripCodeFences code
  /\ String.length (stripCodeFences code) <= String.length code.
Proof.
  split; [apply stripCodeFences_trimmed|].
  unfold stripCodeFences, replaceClosingFence.
  etransitivity; [apply trim_length|].
  etransitivity; [apply dropSuffix_length|].
  apply replaceOpeningFence_length.
Qed.

(** X2: a text in which no triple backtick occurs is only trimmed. *)
Theorem stripCodeFences_without_fence (code : string) :
  includes fence code = false ->
  stripCodeFences code = trim code.
Proof.
  intros H. unfold stripCodeFences, replaceClosingFence.
  rewrite (replaceOpeningFence_id code (includes_startsWith _ _ H)).
  rewrite eqb_false_dropSuffix; [reflexivity|].
  destruct (endsWith fence code) eqn:E; [|reflexivity].
  apply endsWith_includes in E. congruence.
Qed.

Lemma stripCodeFences_without_fence_witness :
  stripCodeFences "  npm install
" = trim "  npm install
".
Proof.
  apply (stripCodeFences_without_fence "  npm install
"). reflexivity.
Defined.

Lemma dropLetters_tag lang rest :
  allLetters lang = true ->
  dropLetters (lang +:+ String LF rest) = String LF rest.
Proof.
  induction lang as [|c lang IH]; intros H.
  - reflexivity.
  - cbn [allLetters] in H. apply andb_true_iff in H as [Hc H].
    change (String c lang +:+ String LF rest)
      with (String c (lang +:+ String LF rest)).
    cbn [dropLetters]. rewrite Hc. now apply IH.
Qed.

Lemma length_append (a b : string) :
  String.length (a +:+ b) = String.length a + String.length b.
Proof.
  induction a as [|c a IH]; [reflexivity|].
  change (String c a +:+ b) with (String c (a +:+ b)). simpl. now rewrite IH.
Qed.

Lemma dropSuffix_app s p : dropSuffix p (s +:+ p) = s.
Proof.
  induction s as [|c s IH].
  - change ("" +:+ p) with p. destruct p; cbn [dropSuffix];
      now rewrite String.eqb_refl.
  - change (String c s +:+ p) with (String c (s +:+ p)).
    cbn [dropSuffix].
    destruct (String.eqb_spec (String c (s +:+ p)) p) as [E|_].
    + apply (f_equal String.length) in E. simpl in E.
      rewrite length_append in E. lia.
    + now rewrite IH.
Qed.

Lemma trimEnd_snoc_space s c :
  isWhiteSpace c = true -> trimEnd (s +:+ String c "") = trimEnd s.
Proof.
  intros Hc. induction s as [|a s IH].
  - change ("" +:+ String c "") with (String c ""). cbn [trimEnd]. now rewrite Hc.
  - change (String a s +:+ String c "") with (String a (s +:+ String c "")).
    cbn [trimEnd]. now rewrite IH.
Qed.

Lemma trim_snoc_space s c :
  isWhiteSpace c = true -> trim (s +:+ String c "") = trim s.
Proof.
  intros Hc. unfold trim. induction s as [|a s IH].
  - change ("" +:+ String c "") with (String c ""). cbn [trimStart trimEnd].
    now rewrite Hc.
  - change (String a s +:+ String c "") with (String a (s +:+ String c "")).
    cbn [trimStart]. destruct (isWhiteSpace a); [exact IH|].
    change (String a (s +:+ String c "")) with (String a s +:+ String c "").
    now apply trimEnd_snoc_space.
Qed.

(** X3: a block that opens with a fence and a language tag of letters on
    one line and closes with a fence on a line of its own is unwrapped:
    the result is its body, trimmed. *)
Theorem stripCodeFences_unwraps_block (lang body : string) :
  allLetters lang = true ->
  stripCodeFences (fence +:+ lang +:+ String LF (body +:+ String LF fence))
  = trim body.
Proof.
  intros Hlang. unfold stripCodeFences, replaceOpeningFence, replaceClosingFence.
  rewrite startsWith_app.
  change (slice 3 (fence +:+ lang +:+ String LF (body +:+ String LF fence)))
    with (lang +:+ String LF (body +:+ String LF fence)).
  rewrite (dropLetters_tag lang _ Hlang). cbn [dropNewline].
  rewrite Ascii.eqb_refl.
  change (body +:+ String LF fence) with (body +:+ (String LF "" +:+ fence)).
  rewrite <- append_assoc, dropSuffix_app.
  now apply trim_snoc_space.
Qed.

Lemma stripCodeFences_unwraps_block_witness :
  stripCodeFences (fence +:+ "bash" +:+ String LF ("cd src
npm install" +:+ String LF fence))
  = trim "cd src
npm install".
Proof.
  apply (stripCodeFences_unwraps_block "bash" "cd src
npm install"). reflexivity.
Defined.

(** ** The candidate commands of a plan *)

(** X4: every candidate command is a trimmed, non-empty line that is not
    a comment, a fence or the [bash] tag, and that contains none of the
    long-running commands. *)
Theorem candidateCommands_well_formed (plan : string) :
  Forall (fun cmd =>
            trim cmd = cmd
            /\ cmd <> EmptyString
            /\ startsWith "#" cmd = false
            /\ startsWith fence cmd = false
            /\ toLowerCase cmd <> "bash"
            /\ Forall (fun longCmd => includes longCmd cmd = false) longRunningCommands)
    (candidateCommands plan).
Proof.
  apply Forall_forall. intros cmd Hin. apply list_elem_of_In in Hin.
  unfold candidateCommands in Hin. apply filter_In in Hin as [Hin Hkeep].
  apply in_map_iff in Hin as (line & <- & _).
  apply andb_true_iff in Hkeep as [Hskip Hlong].
  apply negb_true_iff in Hskip, Hlong.
  unfold isSkippedLine in Hskip.
  apply orb_false_iff in Hskip as [Hskip Hbash].
  apply orb_false_iff in Hskip as [Hskip Hfence].
  apply orb_false_iff in Hskip as [Hempty Hhash].
  repeat split; auto.
  - apply trim_idempotent.
  - intros E. rewrite E in Hempty. discriminate.
  - intros E. apply String.eqb_neq in Hbash. contradiction.
  - unfold isLongRunningCommand in Hlong. apply Forall_forall.
    intros longCmd Hl. apply list_elem_of_In in Hl.
    destruct (includes longCmd (trim line)) eqn:E; [|reflexivity].
    assert (existsb (fun l => includes l (trim line)) longRunningCommands = true)
      by (apply existsb_exists; eauto).
    congruence.
Qed.

(** X5: the candidates of two plans put one after the other, with a line
    feed between them, are the candidates of the first followed by those
    of the second. *)
Theorem candidateCommands_app (plan1 plan2 : string) :
  candidateCommands (plan1 +:+ String LF plan2)
  = candidateCommands plan1 ++ candidateCommands plan2.
Proof.
  unfold candidateCommands.
  now rewrite split_app_sep, List.map_app, List.filter_app.
Qed.

(** ** The path of a file creation *)

Lemma split_segments_without sep s :
  Forall (fun seg => includes (String sep "") seg = false) (split sep s).
Proof.
  induction s as [|c s IH]; cbn [split].
  - now repeat constructor.
  - destruct (Ascii.eqb c sep) eqn:E.
    + constructor; [reflexivity | exact IH].
    + destruct (split sep s) as [|h t] eqn:Es;
        [now destruct (split_nonempty sep s)|].
      inversion IH as [|? ? Hh Ht]; subst. constructor; [|exact Ht].
      cbn [includes startsWith]. rewrite Hh, andb_true_r, orb_false_r.
      rewrite Ascii.eqb_sym. exact E.
Qed.

Lemma endsWith_refl s : endsWith s s = true.
Proof. destruct s; cbn [endsWith]; now rewrite String.eqb_refl. Qed.

Lemma endsWith_cons p c s : endsWith p s = true -> endsWith p (String c s) = true.
Proof. intros H. cbn [endsWith]. rewrite H. apply orb_true_r. Qed.

(** The last piece of a split is what follows the last separator. *)
Lemma split_last_suffix sep s h t :
  split sep s = h :: t ->
  (t = [] -> h = s) /\ endsWith (List.last (h :: t) "") s = true.
Proof.
  revert h t. induction s as [|c s IH]; intros h t E.
  - cbn in E. inversion E; subst. split; reflexivity.
  - cbn [split] in E.
    destruct (split sep s) as [|h' t'] eqn:Es;
      [now destruct (split_nonempty sep s)|].
    destruct (IH h' t' eq_refl) as [Hone Hlast].
    destruct (Ascii.eqb c sep); injection E as <- <-.
    + split; [discriminate|].
      change (List.last ("" :: h' :: t') "") with (List.last (h' :: t') "").
      now apply endsWith_cons.
    + destruct t' as [|x r].
      * rewrite (Hone eq_refl). split; [reflexivity | apply endsWith_refl].
      * split; [discriminate|].
        change (List.last (String c h' :: x :: r) "") with (List.last (x :: r) "").
        change (List.last (h' :: x :: r) "") with (List.last (x :: r) "") in Hlast.
        now apply endsWith_cons.
Qed.

Lemma last_In {A} (x : A) l d : In (List.last (x :: l) d) (x :: l).
Proof.
  revert x. induction l as [|y l IH]; intros x; [now left|].
  change (List.last (x :: y :: l) d) with (List.last (y :: l) d).
  right. apply IH.
Qed.

(** What comes before the last piece of a split ends with the
    separator. *)
Lemma split_last_decomp sep s h t :
  split sep s = h :: t ->
  match t with
  | [] => s = h
  | _ :: _ => exists pre, s = pre +:+ String sep (List.last (h :: t) "")
  end.
Proof.
  revert h t. induction s as [|c s IH]; intros h t E.
  - cbn in E. now injection E as <- <-.
  - cbn [split] in E.
    destruct (split sep s) as [|h' t'] eqn:Es;
      [now destruct (split_nonempty sep s)|].
    specialize (IH h' t' eq_refl).
    destruct (Ascii.eqb_spec c sep) as [->|Hne]; injection E as <- <-.
    + change (List.last ("" :: h' :: t') "") with (List.last (h' :: t') "").
      destruct t' as [|x r].
      * exists "". now rewrite IH.
      * destruct IH as (pre & ->). now exists (String sep pre).
    + destruct t' as [|x r]; [now rewrite IH|].
      destruct IH as (pre & ->). exists (String c pre).
      change (List.last (String c h' :: x :: r) "") with (List.last (x :: r) "").
      reflexivity.
Qed.

(** X6: the path of a file-creation command is what follows the last
    space of the command line: it holds no space, and it is the whole
    line, or the line is some text, a space and the path.  So a path with
    a space in it is cut. *)
Theorem file_creation_path_is_last_word (cmd filePath : string) :
  dispatch cmd = FileCreation filePath ->
  includes " " filePath = false
  /\ (cmd = filePath \/ exists pre, cmd = pre +:+ " " +:+ filePath)
  /\ endsWith filePath cmd = true.
Proof.
  unfold dispatch. destruct (startsWith "cd " cmd); [discriminate|].
  destruct (isFileCreationCommand cmd); [|discriminate].
  intros [= <-]. unfold pop.
  pose proof (split_segments_without SPACE cmd) as H.
  destruct (split SPACE cmd) as [|h t] eqn:E;
    [now destruct (split_nonempty SPACE cmd)|].
  split; [|split].
  - rewrite Forall_forall in H. apply H, list_elem_of_In, last_In.
  - pose proof (split_last_decomp SPACE cmd h t E) as D.
    destruct t as [|x r]; [now left | right; exact D].
  - now apply (split_last_suffix SPACE cmd h t).
Qed.

Lemma file_creation_path_is_last_word_witness :
  includes " " "Project/app.js" = false
  /\ ("touch My Project/app.js" = "Project/app.js"
      \/ exists pre, "touch My Project/app.js" = pre +:+ " " +:+ "Project/app.js")
  /\ endsWith "Project/app.js" "touch My Project/app.js" = true.
Proof.
  apply (file_creation_path_is_last_word "touch My Project/app.js" "Project/app.js").
  reflexivity.
Defined.

(** ** The Plan Executor *)

Section ExecutorMore.

Context {C : Collaborators}.

Lemma executeCommands_all_executed fuel commands task (w : World C) :
  Forall (fun cmd => In cmd (executedCommands (state w))) commands ->
  executeCommands fuel commands task w = Ok true w.
Proof.
  induction 1 as [|cmd rest Hcmd _ IH]; [reflexivity|].
  cbn [executeCommands]. unfold bind.
  rewrite handleCommand_skip by now apply arrayIncludes_In.
  exact IH.
Qed.

Lemma appendFresh_keeps history commands x :
  In x history -> In x (appendFresh history commands).
Proof.
  revert history. induction commands as [|cmd rest IH]; intros h H; [exact H|].
  cbn [appendFresh]. destruct (arrayIncludes cmd h); apply IH; auto.
  apply in_or_app. now left.
Qed.

Lemma appendFresh_holds history commands x :
  In x commands -> In x (appendFresh history commands).
Proof.
  revert history. induction commands as [|cmd rest IH]; intros h H; [destruct H|].
  cbn [appendFresh]. destruct H as [<-|H].
  - destruct (arrayIncludes cmd h) eqn:E; apply appendFresh_keeps.
    + now apply arrayIncludes_In.
    + apply in_or_app. right. now left.
  - destruct (arrayIncludes cmd h); now apply IH.
Qed.

Lemma appendFresh_extends history commands :
  exists added, appendFresh history commands = history ++ added.
Proof.
  revert history. induction commands as [|cmd rest IH]; intros h.
  - exists []. now rewrite app_nil_r.
  - cbn [appendFresh]. destruct (arrayIncludes cmd h); [apply IH|].
    destruct (IH (h ++ [cmd])) as (added & E). exists (cmd :: added).
    rewrite E. now rewrite <- app_assoc.
Qed.

Lemma changeDirectory_returns cmd targetDir (w : World C) :
  exists step w', changeDirectory cmd targetDir w = Ok step w'.
Proof. run_steps; eauto. Qed.

Lemma runShell_returns cmd (w : World C) :
  exists step w', runShell cmd w = Ok step w'.
Proof. run_steps; eauto. Qed.

Lemma executeCommands_returns fuel commands task (w : World C) :
  noFileCreation commands ->
  exists success w', executeCommands fuel commands task w = Ok success w'.
Proof.
  intros H. revert w. induction H as [|cmd rest Hcmd _ IH]; intros w.
  - now exists true, w.
  - cbn [executeCommands]. unfold bind.
    assert (Hstep : exists step w', handleCommand fuel cmd task w = Ok step w').
    { destruct (arrayIncludes cmd (executedCommands (state w))) eqn:E.
      - rewrite handleCommand_skip by exact E. eauto.
      - rewrite handleCommand_fresh by exact E.
        destruct (dispatch cmd) as [t|f|c] eqn:D.
        + apply changeDirectory_returns.
        + now destruct (Hcmd f).
        + apply runShell_returns. }
    destruct Hstep as ([|] & w1 & ->); [apply IH|].
    now exists false, w1.
Qed.

End ExecutorMore.

(** X7: [executedCommands] only grows: however a plan ends (success,
    abort, error, or a validator that does not come back), the history
    before it is a prefix of the history after it. *)
Theorem executePlan_history_grows {C : Collaborators}
  (fuel : nat) (plan task : string) (w : World C) :
  exists added,
    executedCommands (state (worldOf (executePlan fuel plan task w)))
    = executedCommands (state w) ++ added.
Proof. apply executeCommands_history_grows. Qed.

(** X8: a plan that was executed with success is done: executing it again
    (whatever the task and the fuel) returns [success = true] at once and
    leaves the world as it is, so that nothing is spawned or asked. *)
Theorem executed_plan_is_a_no_op {C : Collaborators}
  (fuel fuel' : nat) (plan task task' : string) (w w' : World C) :
  executePlan fuel plan task w = Ok true w' ->
  executePlan fuel' plan task' w' = Ok true w'.
Proof.
  unfold executePlan. intros H.
  apply executeCommands_completed in H.
  apply executeCommands_all_executed. apply Forall_forall.
  intros cmd Hin. apply list_elem_of_In in Hin. rewrite H.
  now apply appendFresh_holds.
Qed.

Lemma executed_plan_is_a_no_op_witness :
  executePlan 5 twoCommands "another task" afterTwoCommands
  = Ok true afterTwoCommands.
Proof.
  apply (executed_plan_is_a_no_op 0 5 twoCommands "task" "another task"
           quietWorld afterTwoCommands).
  vm_compute. reflexivity.
Defined.

(** X9: a command that is listed more than once in a plan is handled
    once: the later occurrences change nothing. *)
Theorem repeated_line_is_handled_once {C : Collaborators}
  (fuel : nat) (cmd task : string) (rest : list string) (w : World C) :
  executeCommands fuel (cmd :: rest) task w
  = executeCommands fuel
      (cmd :: List.filter (fun x => negb (String.eqb x cmd)) rest) task w.
Proof.
  cbn [executeCommands]. unfold bind.
  pose proof (handleCommand_history fuel cmd task w) as Hh. simpl in Hh.
  destruct (handleCommand fuel cmd task w) as [[|] w1|e w1|w1]; try reflexivity.
  apply executeCommands_without_executed. rewrite Hh.
  destruct (arrayIncludes cmd (executedCommands (state w))) eqn:E.
  - now apply arrayIncludes_In.
  - apply in_or_app. right. now left.
Qed.

(** X10: the Plan Executor spawns subprocesses and asks the oracle to
    generate or to fix files, and nothing else: it never asks for a plan
    and never prompts the operator. *)
Theorem executePlan_events {C : Collaborators}
  (fuel : nat) (plan task : string) (w : World C) :
  traceExt isExecutorEvent w (worldOf (executePlan fuel plan task w)).
Proof.
  revert w. change (respects (@traceExt C isExecutorEvent) (executePlan fuel plan task)).
  apply respects_executePlan;
    [ apply traceExt_refl | apply traceExt_trans | trace_any .. ].
Qed.

(** X11: as long as every subprocess it starts exits (the [execAsync] of
    the model always settles; line 194 passes no timeout, so a command
    that never exits keeps the real executor waiting), a plan without
    file creations returns a success flag, even without fuel: the
    executor itself neither throws nor loops on directory changes and
    shell commands; their failures are the [success = false] result. *)
Theorem plan_without_file_creation_returns {C : Collaborators}
  (fuel : nat) (plan task : string) (w : World C) :
  noFileCreation (candidateCommands plan) ->
  exists success w', executePlan fuel plan task w = Ok success w'.
Proof. apply executeCommands_returns. Qed.

Lemma plan_without_file_creation_returns_witness :
  exists success w', executePlan 0 shellOnlyPlan "task" quietWorld = Ok success w'.
Proof.
  apply (plan_without_file_creation_returns 0 shellOnlyPlan "task" quietWorld).
  repeat constructor; discriminate.
Defined.

(** X12: a directory change whose target exists as a regular file fails
    and aborts the plan; nothing is recorded in the history and the
    working directory of the process stays, but the current directory of
    the execution state has already been set to the target. *)
Theorem cd_onto_regular_file {C : Collaborators}
  (fuel : nat) (cmd targetDir task : string) (w : World C) :
  arrayIncludes cmd (executedCommands (state w)) = false ->
  dispatch cmd = DirectoryChange targetDir ->
  isFile (Path.resolve (processCwd w) (currentDir (state w)) targetDir) (fs w) = true ->
  handleCommand fuel cmd task w
  = Ok ReturnFailure
      {| state := {| currentDir :=
                       Path.resolve (processCwd w) (currentDir (state w)) targetDir;
                     executedCommands := executedCommands (state w);
                     projectRoot := projectRoot (state w) |};
         fs := fs w; processCwd := processCwd w; env := env w;
         events := events w |}.
Proof.
  intros Hnew Hd Hfile. rewrite handleCommand_fresh by exact Hnew. rewrite Hd.
  unfold changeDirectory.
  cbv beta iota zeta delta [bind tryCatch getState cwd fsExists ret].
  set (newPath := Path.resolve (processCwd w) (currentDir (state w)) targetDir) in *.
  assert (Hex : existsSync newPath (fs w) = true).
  { unfold existsSync, isFile in *. now destruct (fs w !! newPath). }
  assert (Hdir : isDirectory newPath (fs w) = false).
  { unfold isDirectory, isFile in *. now destruct (fs w !! newPath) as [[|]|]. }
  rewrite Hex. cbn [negb].
  cbv beta iota zeta delta [bind setCurrentDir getState setState chdir
    pushExecuted ret]. cbn [fs state]. now rewrite Hdir.
Qed.

Lemma cd_onto_regular_file_witness :
  handleCommand 0 "cd a" "task" fileInTheWay
  = Ok ReturnFailure
      {| state := {| currentDir := Path.resolve "/w" "/w" "a";
                     executedCommands := [];
                     projectRoot := None |};
         fs := fs fileInTheWay; processCwd := "/w"; env := env fileInTheWay;
         events := [] |}.
Proof.
  apply (cd_onto_regular_file 0 "cd a" "a" "task" fileInTheWay); reflexivity.
Defined.

(** X13: a directory change whose target does not exist and cannot be
    created, a regular file being in the way above it, fails and aborts
    the plan with everything as it was. *)
Theorem cd_that_cannot_be_created {C : Collaborators}
  (fuel : nat) (cmd targetDir task : string) (w : World C) :
  arrayIncludes cmd (executedCommands (state w)) = false ->
  dispatch cmd = DirectoryChange targetDir ->
  existsSync (Path.resolve (processCwd w) (currentDir (state w)) targetDir) (fs w)
  = false ->
  blockedByFile (Path.resolve (processCwd w) (currentDir (state w)) targetDir) (fs w)
  = true ->
  handleCommand fuel cmd task w = Ok ReturnFailure w.
Proof.
  intros Hnew Hd Hex Hblocked. rewrite handleCommand_fresh by exact Hnew. rewrite Hd.
  unfold changeDirectory.
  cbv beta iota zeta delta [bind tryCatch getState cwd fsExists ret].
  rewrite Hex. cbn [negb]. unfold mkdir at 1, mkdirRecursive.
  now rewrite Hblocked.
Qed.

Lemma cd_that_cannot_be_created_witness :
  handleCommand 0 "cd a/b" "task" fileInTheWay = Ok ReturnFailure fileInTheWay.
Proof.
  apply (cd_that_cannot_be_created 0 "cd a/b" "a/b" "task" fileInTheWay);
    reflexivity.
Defined.

(** X14: the current directory stays a resolved absolute path: if it is
    one before a plan, it is one after it, however the plan ends. *)
Theorem currentDir_stays_resolved {C : Collaborators}
  (fuel : nat) (plan task : string) (w : World C) :
  Path.canonical (currentDir (state w)) ->
  Path.canonical (currentDir (state (worldOf (executePlan fuel plan task w)))).
Proof. apply executePlan_keeps_canonical. Qed.

Lemma currentDir_stays_resolved_witness :
  Path.canonical
    (currentDir (state (worldOf (executePlan 0 shellOnlyPlan "task" quietWorld)))).
Proof.
  apply (currentDir_stays_resolved 0 shellOnlyPlan "task" quietWorld).
  reflexivity.
Defined.

(** X15: when a plan is executed with success, the working directory of
    the process has followed the current directory of the execution
    state: if they agreed before the plan, they agree after it. *)
Theorem successful_plan_keeps_cwd_in_sync {C : Collaborators}
  (fuel : nat) (plan task : string) (w w' : World C) :
  processCwd w = currentDir (state w) ->
  executePlan fuel plan task w = Ok true w' ->
  processCwd w' = currentDir (state w').
Proof.
  unfold executePlan. generalize (candidateCommands plan) as commands.
  intros commands. revert w.
  induction commands as [|cmd rest IH]; intros w Hsync H.
  - cbn in H. unfold ret in H. now inversion H; subst.
  - cbn [executeCommands] in H. unfold bind in H.
    destruct (handleCommand fuel cmd task w) as [[|] w1|e w1|w1] eqn:E;
      try discriminate.
    apply (IH w1); [|exact H].
    now apply (handleCommand_cwd_in_sync fuel cmd task w w1).
Qed.

Lemma successful_plan_keeps_cwd_in_sync_witness :
  processCwd (worldOf (executePlan 0 "cd sub
ls" "task" quietWorld))
  = currentDir (state (worldOf (executePlan 0 "cd sub
ls" "task" quietWorld))).
Proof.
  apply (successful_plan_keeps_cwd_in_sync 0 "cd sub
ls" "task" quietWorld); vm_compute; reflexivity.
Defined.

(** ** Writing files and validating them *)

Section Files.

Context {C : Collaborators}.

Lemma mkdir_chain_inside chain (files : gmap string FsNode) q :
  In q chain ->
  List.fold_right (fun p acc => <[p := Dir]> acc) files chain !! q = Some Dir.
Proof.
  induction chain as [|p chain IH]; intros H; [destruct H|].
  cbn [List.fold_right]. destruct (decide (p = q)) as [->|Hne].
  - apply lookup_insert_eq.
  - rewrite lookup_insert_ne by exact Hne. destruct H as [H|H]; [congruence|auto].
Qed.

Lemma mkdir_chain_outside chain (files : gmap string FsNode) q :
  ~ In q chain ->
  List.fold_right (fun p acc => <[p := Dir]> acc) files chain !! q = files !! q.
Proof.
  induction chain as [|p chain IH]; intros H; [reflexivity|].
  cbn [List.fold_right]. rewrite lookup_insert_ne.
  - apply IH. intros Hin. apply H. now right.
  - intros ->. apply H. now left.
Qed.

Lemma blockedByFile_chain p (files : gmap string FsNode) q :
  blockedByFile p files = false -> In q (directoryChain p) -> isFile q files = false.
Proof.
  unfold blockedByFile. fold (directoryChain p). intros H Hin.
  destruct (isFile q files) eqn:E; [|reflexivity].
  assert (existsb (fun q => isFile q files) (directoryChain p) = true)
    by (apply existsb_exists; eauto).
  congruence.
Qed.

(** What [writeCodeToFile] does when nothing is in its way. *)
Lemma writeCodeToFile_ok filePath code (w : World C) :
  blockedByFile (Path.dirname filePath) (fs w) = false ->
  isDirectory filePath (fs w) = false ->
  ~ In filePath (directoryChain (Path.dirname filePath)) ->
  writeCodeToFile filePath code w
  = Ok tt
      {| state := state w;
         fs := <[filePath := File code]>
                 (List.fold_right (fun p acc => <[p := Dir]> acc) (fs w)
                    (directoryChain (Path.dirname filePath)));
         processCwd := processCwd w; env := env w; events := events w |}.
Proof.
  intros Hfree Hnodir Hout.
  unfold writeCodeToFile, bind, mkdir, mkdirRecursive. rewrite Hfree.
  fold (directoryChain (Path.dirname filePath)).
  cbv beta iota zeta delta [setFs]. unfold writeFile, writeFileFs. cbn [fs].
  assert (H1 : isDirectory filePath
                 (List.fold_right (fun p acc => <[p := Dir]> acc) (fs w)
                    (directoryChain (Path.dirname filePath))) = false).
  { unfold isDirectory in *. now rewrite mkdir_chain_outside. }
  assert (H2 : isDirectory (Path.dirname filePath)
                 (List.fold_right (fun p acc => <[p := Dir]> acc) (fs w)
                    (directoryChain (Path.dirname filePath))) = true).
  { unfold isDirectory. rewrite mkdir_chain_inside; [reflexivity|]. now left. }
  rewrite H1, H2. reflexivity.
Qed.

End Files.

(** X16: for a resolved absolute path [filePath] (the form in which the
    executor passes it): when no regular file sits at its directory or
    above it, and [filePath] is not itself a directory or one of those
    directories, [writeCodeToFile] succeeds; afterwards the file reads
    back as the code that was written, its directory exists, and every
    other resolved path that is not one of the directories above the file
    holds what it held before. *)
Theorem writeCodeToFile_round_trip {C : Collaborators}
  (filePath code : string) (w : World C) :
  Path.canonical filePath ->
  blockedByFile (Path.dirname filePath) (fs w) = false ->
  isDirectory filePath (fs w) = false ->
  ~ In filePath (directoryChain (Path.dirname filePath)) ->
  exists w',
    writeCodeToFile filePath code w = Ok tt w'
    /\ readFileFs filePath (fs w') = Some code
    /\ isDirectory (Path.dirname filePath) (fs w') = true
    /\ (forall q, Path.canonical q ->
                  q <> filePath ->
                  ~ In q (directoryChain (Path.dirname filePath)) ->
                  fs w' !! q = fs w !! q)
    /\ state w' = state w /\ events w' = events w.
Proof.
  intros _ Hfree Hnodir Hout. eexists. split.
  - now apply writeCodeToFile_ok.
  - cbn [fs state events]. repeat split.
    + unfold readFileFs. now rewrite lookup_insert_eq.
    + unfold isDirectory. rewrite lookup_insert_ne.
      * rewrite mkdir_chain_inside; [reflexivity | now left].
      * intros E. apply Hout. rewrite <- E. now left.
    + intros q _ Hq Hqout. rewrite lookup_insert_ne by congruence.
      now apply mkdir_chain_outside.
Qed.

Lemma writeCodeToFile_round_trip_witness :
  exists w',
    writeCodeToFile "/w/src/lib/app.js" "let x = 1;" quietWorld = Ok tt w'
    /\ readFileFs "/w/src/lib/app.js" (fs w') = Some "let x = 1;"
    /\ isDirectory (Path.dirname "/w/src/lib/app.js") (fs w') = true
    /\ (forall q, Path.canonical q ->
                  q <> "/w/src/lib/app.js" ->
                  ~ In q (directoryChain (Path.dirname "/w/src/lib/app.js")) ->
                  fs w' !! q = fs quietWorld !! q)
    /\ state w' = state quietWorld /\ events w' = events quietWorld.
Proof.
  apply (writeCodeToFile_round_trip "/w/src/lib/app.js" "let x = 1;" quietWorld).
  - reflexivity.
  - reflexivity.
  - reflexivity.
  - vm_compute. intros [H|[H|[H|[H|[]]]]]; discriminate.
Defined.

(** X17: where a regular file sits at the directory of [filePath] or
    above it, [writeCodeToFile] throws at the [mkdir] and writes
    nothing. *)
Theorem writeCodeToFile_blocked {C : Collaborators}
  (filePath code : string) (w : World C) :
  blockedByFile (Path.dirname filePath) (fs w) = true ->
  writeCodeToFile filePath code w
  = Throw (FsError "mkdir" (Path.dirname filePath)) w.
Proof.
  intros H. unfold writeCodeToFile, bind, mkdir, mkdirRecursive. now rewrite H.
Qed.

Lemma writeCodeToFile_blocked_witness :
  writeCodeToFile "/w/a/app.js" "x" fileInTheWay
  = Throw (FsError "mkdir" (Path.dirname "/w/a/app.js")) fileInTheWay.
Proof.
  apply (writeCodeToFile_blocked "/w/a/app.js" "x" fileInTheWay). reflexivity.
Defined.

Section Counting.

Context {C : Collaborators}.

Lemma runs_app l l' : runs (l ++ l') = runs l + runs l'.
Proof. unfold runs. now rewrite List.filter_app, length_app. Qed.

Lemma repairs_app l l' : repairs (l ++ l') = repairs l + repairs l'.
Proof. unfold repairs. now rewrite List.filter_app, length_app. Qed.

Lemma writeCodeToFile_outcome filePath code (w : World C) :
  (exists w', writeCodeToFile filePath code w = Ok tt w' /\ events w' = events w)
  \/ (exists e w', writeCodeToFile filePath code w = Throw e w'
                   /\ events w' = events w).
Proof.
  unfold writeCodeToFile, bind, mkdir, writeFile, setFs.
  destruct (mkdirRecursive _ _) as [files|]; cbn [fs].
  - destruct (writeFileFs _ _ _) as [files'|]; [left|right]; eauto.
  - right. eauto.
Qed.

End Counting.

(** X18: the validator starts the artifact at most [fuel] times, and asks
    for a repair only after a run that failed.  When it returns, it has
    made exactly one run more than repair requests; when it throws, as
    many or one more; when the fuel is used up, every one of the [fuel]
    runs failed and was followed by a repair. *)
Theorem validator_runs_and_repairs {C : Collaborators}
  (fuel : nat) (filePath task : string) (w : World C) :
  exists n m,
    runs (events (worldOf (runFileAndFixIfError fuel filePath task w)))
    = runs (events w) + n
    /\ repairs (events (worldOf (runFileAndFixIfError fuel filePath task w)))
       = repairs (events w) + m
    /\ n <= fuel
    /\ match runFileAndFixIfError fuel filePath task w with
       | Ok _ _ => n = m + 1
       | Throw _ _ => n = m \/ n = m + 1
       | OutOfFuel _ => n = fuel /\ m = fuel
       end.
Proof.
  revert w. induction fuel as [|fuel IH]; intros w.
  - exists 0, 0. cbn [runFileAndFixIfError worldOf]. repeat split; lia.
  - remember (runFileAndFixIfError (S fuel) filePath task w) as res eqn:E.
    cbn [runFileAndFixIfError] in E. unfold bind at 1, execAsync at 1 in E.
    destruct (spawn C _ _ _ _) as [[r files'] env'].
    match type of E with
    | context [Build_World ?s ?f ?c ?e (events w ++ [?ev])] =>
        set (w1 := Build_World s f c e (events w ++ [ev])) in E
    end.
    assert (R1 : runs (events w1) = runs (events w) + 1)
      by (subst w1; cbn [events]; now rewrite runs_app).
    assert (P1 : repairs (events w1) = repairs (events w))
      by (subst w1; cbn [events]; rewrite repairs_app; cbn; lia).
    destruct r as [out err|stderr message].
    + exists 1, 0. subst res. cbn [ret worldOf]. repeat split; lia.
    + unfold repairAndRetry in E. unfold bind at 1, readFile at 1 in E.
      destruct (readFileFs filePath (fs w1)) as [code|].
      2:{ exists 1, 0. subst res. cbn [worldOf]. repeat split; lia. }
      unfold bind at 1, generateText at 1 in E.
      destruct (gemini C _ _) as [result env''].
      match type of E with
      | context [Build_World ?s ?f ?c ?e (events w1 ++ [?ev])] =>
          set (w2 := Build_World s f c e (events w1 ++ [ev])) in E
      end.
      assert (R2 : runs (events w2) = runs (events w) + 1)
        by (subst w2; cbn [events]; rewrite runs_app, R1; cbn; lia).
      assert (P2 : repairs (events w2) = repairs (events w) + 1)
        by (subst w2; cbn [events]; rewrite repairs_app, P1; cbn; lia).
      destruct result as [reason|[text|]];
        try (exists 1, 1; subst res; cbn [worldOf]; repeat split; lia).
      unfold bind at 1 in E.
      destruct (writeCodeToFile_outcome filePath (stripCodeFences (trim text)) w2)
        as [(w3 & E' & E3)|(e & w3 & E' & E3)]; rewrite E' in E.
      * destruct (IH w3) as (n & m & Hn & Hm & Hle & Hout).
        exists (1 + n), (1 + m). subst res. rewrite Hn, Hm, E3.
        repeat split; try lia.
        destruct (runFileAndFixIfError fuel filePath task w3); lia.
      * exists 1, 1. subst res. cbn [worldOf]. rewrite E3.
        repeat split; lia.
Qed.

Section Hopeless.

Context {C : Collaborators}.

Lemma file_outside_its_directories filePath (files : gmap string FsNode) :
  isFile filePath files = true ->
  blockedByFile (Path.dirname filePath) files = false ->
  ~ In filePath (directoryChain (Path.dirname filePath)).
Proof.
  intros Hfile Hfree Hin.
  pose proof (blockedByFile_chain _ _ _ Hfree Hin). congruence.
Qed.

Lemma written_file_stays_writable filePath code (files : gmap string FsNode) :
  ~ In filePath (directoryChain (Path.dirname filePath)) ->
  let files' := <[filePath := File code]>
                  (List.fold_right (fun p acc => <[p := Dir]> acc) files
                     (directoryChain (Path.dirname filePath))) in
  isFile filePath files' = true
  /\ blockedByFile (Path.dirname filePath) files' = false.
Proof.
  intros Hout files'. split.
  - unfold isFile, files'. now rewrite lookup_insert_eq.
  - unfold blockedByFile. fold (directoryChain (Path.dirname filePath)).
    destruct (existsb _ _) eqn:E; [|reflexivity].
    apply existsb_exists in E as (q & Hin & Hq).
    unfold isFile, files' in Hq. rewrite lookup_insert_ne in Hq.
    + rewrite mkdir_chain_inside in Hq by exact Hin. discriminate.
    + intros ->. now apply Hout.
Qed.

End Hopeless.

(** X19: the validator has no bound of its own.  Where running the
    artifact always fails and leaves the files alone, the oracle answers
    every repair request with some text, and the artifact is a regular
    file whose directory is not blocked, no amount of fuel lets
    [runFileAndFixIfError] settle: after [fuel] runs and [fuel] repairs it
    is still about to run the artifact again. *)
Theorem validator_never_gives_up {C : Collaborators} (filePath task : string) :
  (forall dir files e, exists stderr message e',
      spawn C ("node " +:+ filePath) dir files e
      = (ExecFail stderr message, files, e')) ->
  (forall code diag e, exists text e',
      gemini C (FixFile code diag task) e = (OracleResponse (Some text), e')) ->
  forall (fuel : nat) (w : World C),
    isFile filePath (fs w) = true ->
    blockedByFile (Path.dirname filePath) (fs w) = false ->
    exists w',
      runFileAndFixIfError fuel filePath task w = OutOfFuel w'
      /\ runs (events w') = runs (events w) + fuel
      /\ repairs (events w') = repairs (events w) + fuel.
Proof.
  intros Hspawn Hgemini fuel.
  induction fuel as [|fuel IH]; intros w Hfile Hfree.
  - exists w. cbn [runFileAndFixIfError]. repeat split; lia.
  - pose proof (file_outside_its_directories _ _ Hfile Hfree) as Hout.
    assert (Hnodir : isDirectory filePath (fs w) = false).
    { unfold isFile in Hfile. unfold isDirectory.
      destruct (fs w !! filePath) as [[|c]|]; congruence. }
    assert (exists code, readFileFs filePath (fs w) = Some code) as [code Hread].
    { unfold isFile in Hfile. unfold readFileFs.
      destruct (fs w !! filePath) as [[|c]|]; try discriminate. eauto. }
    cbn [runFileAndFixIfError]. unfold bind at 1, execAsync at 1.
    destruct (Hspawn (processCwd w) (fs w) (env w)) as (stderr & message & e' & ->).
    cbv beta iota zeta.
    unfold repairAndRetry. unfold bind at 1, readFile at 1. cbn [fs].
    rewrite Hread.
    unfold bind at 1, generateText at 1. cbn [env].
    destruct (Hgemini code (diagnostic stderr message) e') as (text & e'' & ->).
    cbv beta iota zeta. unfold bind at 1.
    rewrite writeCodeToFile_ok by assumption. cbn [fs state processCwd env events].
    destruct (written_file_stays_writable filePath (stripCodeFences (trim text))
                (fs w) Hout) as [Hfile' Hfree'].
    match goal with
    | |- context [runFileAndFixIfError fuel filePath task ?w1] =>
        destruct (IH w1 Hfile' Hfree') as (w' & -> & Hruns & Hrepairs)
    end.
    exists w'. split; [reflexivity|].
    cbn [events] in Hruns, Hrepairs.
    rewrite Hruns, Hrepairs, !runs_app, !repairs_app. cbn. lia.
Qed.

Lemma validator_never_gives_up_witness :
  exists w',
    runFileAndFixIfError 5 "/w/app.js" "task" hopelessWorld = OutOfFuel w'
    /\ runs (events w') = runs (events hopelessWorld) + 5
    /\ repairs (events w') = repairs (events hopelessWorld) + 5.
Proof.
  apply (@validator_never_gives_up hopeless "/w/app.js" "task").
  - intros dir files e. now exists "SyntaxError", "Command failed", e.
  - intros code diag e. now exists "still wrong", e.
  - reflexivity.
  - reflexivity.
Defined.

(** ** How a session ends *)

Section SessionMore.

Context {C : Collaborators}.

Lemma sessionStart_returns (w : World C) :
  sessionStart w
  = Ok (fst (answerTask C (env w)))
      {| state := {| currentDir := processCwd w; executedCommands := [];
                     projectRoot := None |};
         fs := fs w; processCwd := processCwd w;
         env := snd (answerTask C (env w));
         events := events w ++ [EvPrompt AskTask] |}.
Proof.
  unfold sessionStart, bind, cwd, setState, promptWith. cbn [env events].
  now destruct (answerTask C (env w)).
Qed.

Lemma promptWith_frame {A} p (answer : Env C -> A * Env C) (w : World C) :
  exists a w', promptWith p answer w = Ok a w'
    /\ state w' = state w /\ fs w' = fs w /\ processCwd w' = processCwd w
    /\ events w' = events w ++ [EvPrompt p].
Proof.
  unfold promptWith. destruct (answer (env w)) as [a env'].
  do 2 eexists. split; [reflexivity|]. now repeat split.
Qed.

(** The number of planning calls of the loop, by the way it ends. *)
Lemma sessionLoop_calls_by_outcome fuel iterations attempt task (w : World C) :
  maxAttempts <= attempt + iterations ->
  exists n,
    planningCalls (events (worldOf (sessionLoop fuel iterations attempt task w)))
    = planningCalls (events w) + n
    /\ match sessionLoop fuel iterations attempt task w with
       | Ok MaximumAttemptsReached _ => n = maxAttempts - attempt
       | Ok Exited _ | Ok (FatalError _) _ => False
       | _ => 1 <= n <= maxAttempts - attempt
       end.
Proof.
  revert attempt task w.
  induction iterations as [|it IH]; intros attempt task w Hle;
    remember (sessionLoop fuel _ attempt task w) as r eqn:E;
    cbn [sessionLoop] in E;
    destruct (Nat.ltb_spec attempt maxAttempts) as [Hlt|Hge];
    try lia;
    try (exists 0; subst r; cbn [worldOf ret]; split; lia).
  unfold bind at 1 in E.
  pose proof (getRefinedPlan_calls task w) as P1.
  destruct (getRefinedPlan task w) as [plan w1|e w1|w1]; cbn [worldOf] in P1;
    try (exists 1; subst r; cbn [worldOf]; split; lia).
  unfold bind at 1 in E.
  destruct (promptWith_calls (AskConfirm plan) (answerConfirm C plan) w1)
    as (confirm & w2 & E2 & P2). rewrite E2 in E.
  destruct confirm; cbn [negb] in E;
    [|exists 1; subst r; cbn [worldOf ret]; split; lia].
  unfold bind at 1 in E.
  pose proof (executePlan_calls fuel plan task w2) as P3.
  destruct (executePlan fuel plan task w2) as [[|] w3|e w3|w3];
    cbn [worldOf] in P3;
    try (exists 1; subst r; cbn [worldOf ret]; split; lia).
  unfold bind at 1 in E.
  destruct (promptWith_calls AskFeedback (answerFeedback C) w3)
    as (feedback & w4 & E4 & P4). rewrite E4 in E.
  destruct (IH (attempt + 1) (task +:+ "
Error: " +:+ feedback) w4) as (n & Hn & Hout); [lia|].
  exists (1 + n). subst r. split; [lia|].
  destruct (sessionLoop fuel it (attempt + 1) _ w4) as [[| | | |err] w5|e w5|w5];
    lia.
Qed.

(** What [main] has become after [k] failed attempts. *)
Lemma main_after_failed_attempts fuel k rawTask task (w w0 wk : World C) :
  sessionStart w = Ok rawTask w0 ->
  String.eqb (toLowerCase rawTask) "exit" = false ->
  failedAttempts fuel k rawTask w0 = Some (task, wk) ->
  k < maxAttempts ->
  main fuel w
  = tryCatch (sessionLoop fuel (S (maxAttempts - S k)) k task)
      (fun err => ret (FatalError err)) wk.
Proof.
  intros Hstart Hexit Hfail Hk.
  unfold main, tryCatch, mainBody. unfold bind at 1. rewrite Hstart, Hexit.
  replace maxAttempts with (k + S (maxAttempts - S k)) at 1 by lia.
  rewrite (sessionLoop_failed_attempts fuel k _ 0 _ _ _ _ Hfail) by lia.
  reflexivity.
Qed.

Lemma sameRoot_executePlan fuel plan task :
  respects (@sameRoot C) (@executePlan C fuel plan task).
Proof.
  apply respects_executePlan;
    [ reflexivity | unfold sameRoot; congruence | run_primitive; reflexivity .. ].
Qed.

Lemma notPlanning_rootUnknown e : notPlanning e -> rootUnknown e.
Proof. destruct e as [| [] |]; cbn; try easy. Qed.

(** While the project root is unset, the loop leaves it unset and shows
    no root to the planning oracle. *)
Lemma sessionLoop_root fuel iterations attempt task (w : World C) :
  projectRoot (state w) = None ->
  rootUnset w (worldOf (sessionLoop fuel iterations attempt task w)).
Proof.
  revert attempt task w.
  induction iterations as [|it IH]; intros attempt task w Hroot;
    cbn [sessionLoop];
    destruct (attempt <? maxAttempts)%nat;
    try (cbn [worldOf ret]; split; [exact Hroot | apply traceExt_refl]).
  assert (H1 : rootUnset w (worldOf (getRefinedPlan task w))).
  { unfold getRefinedPlan, bind, getState, generateText.
    destruct (gemini C _ _) as [[reason|[text|]] env'];
      cbn [worldOf ret state]; (split; [exact Hroot|]);
      (eapply traceExt_one; [reflexivity | exact Hroot]). }
  unfold bind at 1.
  destruct (getRefinedPlan task w) as [plan w1|e w1|w1]; cbn [worldOf] in *;
    try exact H1.
  destruct H1 as [R1 T1]. unfold bind at 1.
  destruct (promptWith_frame (AskConfirm plan) (answerConfirm C plan) w1)
    as (confirm & w2 & -> & S2 & _ & _ & E2).
  assert (R2 : projectRoot (state w2) = None) by now rewrite S2.
  assert (T2 : traceExt rootUnknown w w2).
  { eapply traceExt_trans; [exact T1|]. eapply traceExt_one; [exact E2 | exact I]. }
  destruct confirm; cbn [negb]; [|cbn [worldOf ret]; now split].
  unfold bind at 1.
  pose proof (sameRoot_executePlan fuel plan task w2) as S3.
  pose proof (noPlanning_executePlan fuel plan task w2) as T3.
  apply (traceExt_weaken _ rootUnknown) in T3; [|exact notPlanning_rootUnknown].
  unfold sameRoot in S3.
  assert (R3 : projectRoot (state (worldOf (executePlan fuel plan task w2))) = None)
    by now rewrite S3.
  pose proof (traceExt_trans _ _ _ _ T2 T3) as T3'.
  destruct (executePlan fuel plan task w2) as [[|] w3|e w3|w3];
    cbn [worldOf ret] in *; try now split.
  unfold bind at 1.
  destruct (promptWith_frame AskFeedback (answerFeedback C) w3)
    as (feedback & w4 & -> & S4 & _ & _ & E4).
  destruct (IH (attempt + 1) (task +:+ "
Error: " +:+ feedback) w4) as [R5 T5]; [now rewrite S4|].
  split; [exact R5|].
  eapply traceExt_trans; [exact T3'|].
  eapply traceExt_trans; [|exact T5].
  eapply traceExt_one; [exact E4 | exact I].
Qed.

Lemma failedAttempt_grows fuel task task' (w w' : World C) :
  failedAttempt fuel task w = Some (task', w') ->
  exists feedback added,
    task' = task +:+ "
Error: " +:+ feedback
    /\ executedCommands (state w') = executedCommands (state w) ++ added.
Proof.
  intros H. apply failedAttempt_inv in H
    as (plan & w1 & w2 & w3 & feedback & Hplan & Hconf & Hexec & Hfb & ->).
  exists feedback.
  assert (S1 : state w1 = state w).
  { revert Hplan. unfold getRefinedPlan, bind, getState, generateText.
    destruct (gemini C _ _) as [[reason|[text|]] env']; try discriminate.
    now intros [= _ <-]. }
  destruct (promptWith_frame (AskConfirm plan) (answerConfirm C plan) w1)
    as (a & wa & Ea & S2 & _). rewrite Hconf in Ea. injection Ea as _ <-.
  destruct (executeCommands_history_grows fuel (candidateCommands plan) task w2)
    as (added & S3).
  change (executeCommands fuel (candidateCommands plan) task w2)
    with (executePlan fuel plan task w2) in S3.
  rewrite Hexec in S3. cbn [worldOf] in S3.
  destruct (promptWith_frame AskFeedback (answerFeedback C) w3)
    as (b & wb & Eb & S4 & _). rewrite Hfb in Eb. injection Eb as _ <-.
  exists added. split; [reflexivity|]. now rewrite S4, S3, S2, S1.
Qed.

End SessionMore.

(** X20: [main] ends by the exit word exactly when the operator's first
    answer, in lower case, is [exit]; the run then stops right after the
    first question: the oracle was not asked, nothing was spawned, and
    the files are as they were. *)
Theorem exit_word_ends_the_run {C : Collaborators} (fuel : nat) (w w' : World C) :
  main fuel w = Ok Exited w'
  <-> toLowerCase (fst (answerTask C (env w))) = "exit"
      /\ w' = worldOf (sessionStart w)
      /\ events w' = events w ++ [EvPrompt AskTask]
      /\ fs w' = fs w.
Proof.
  unfold main, tryCatch, mainBody. unfold bind at 1.
  rewrite sessionStart_returns. cbn [worldOf].
  match goal with
  | |- context [Build_World ?s ?f ?c ?e (events w ++ [?ev])] =>
      set (w0 := Build_World s f c e (events w ++ [ev]))
  end.
  destruct (String.eqb_spec (toLowerCase (fst (answerTask C (env w)))) "exit")
    as [Heq|Hne].
  - cbn [ret]. split.
    + intros [= <-]. now repeat split.
    + intros (_ & -> & _). reflexivity.
  - split; [|intros (Heq & _); contradiction].
    destruct (sessionLoop_calls_by_outcome fuel maxAttempts 0
                (fst (answerTask C (env w))) w0) as (n & _ & Hout); [lia|].
    destruct (sessionLoop fuel maxAttempts 0 _ w0) as [[| | | |err] w5|e w5|w5];
      try discriminate; contradiction.
Qed.

Lemma exit_word_ends_the_run_witness :
  main 1 exitWorld = Ok Exited (worldOf (sessionStart exitWorld)).
Proof.
  apply (exit_word_ends_the_run 1 exitWorld (worldOf (sessionStart exitWorld))).
  repeat split; vm_compute; reflexivity.
Defined.

(** X21: the way a run ends fixes how often the planning oracle was
    asked: never when the operator typed the exit word, three times when
    the maximum of attempts was reached, and between once and three times
    when the operator declined a plan, a plan succeeded, an error was
    reported as fatal, or the validator did not come back.  No error
    leaves [main]. *)
Theorem outcome_and_planning_calls {C : Collaborators} (fuel : nat) (w : World C) :
  exists n,
    planningCalls (events (worldOf (main fuel w))) = planningCalls (events w) + n
    /\ match main fuel w with
       | Ok Exited _ => n = 0
       | Ok MaximumAttemptsReached _ => n = 3
       | Ok _ _ | OutOfFuel _ => 1 <= n <= 3
       | Throw _ _ => False
       end.
Proof.
  remember (main fuel w) as r eqn:E.
  unfold main, tryCatch, mainBody in E. unfold bind at 1 in E.
  rewrite sessionStart_returns in E.
  match type of E with
  | context [Build_World ?s ?f ?c ?e (events w ++ [?ev])] =>
      set (w0 := Build_World s f c e (events w ++ [ev])) in E
  end.
  assert (P0 : planningCalls (events w0) = planningCalls (events w))
    by (subst w0; cbn [events]; rewrite planningCalls_app; cbn; lia).
  destruct (String.eqb _ "exit").
  - exists 0. subst r. cbn [ret worldOf]. split; lia.
  - destruct (sessionLoop_calls_by_outcome fuel maxAttempts 0
                (fst (answerTask C (env w))) w0) as (n & Hn & Hout); [lia|].
    exists n. subst r.
    destruct (sessionLoop fuel maxAttempts 0 _ w0) as [[| | | |err] w5|e w5|w5];
      unfold maxAttempts in Hout; cbn [worldOf ret] in *;
      (split; [lia|]); try lia; try contradiction.
Qed.

(** X22: when the operator declines a plan (after fewer than three failed
    attempts), the run ends as aborted by the user, and between the
    request for the plan and the end only the question was asked: the
    execution state and the files are what they were when the plan came
    back. *)
Theorem declined_plan_runs_nothing {C : Collaborators}
  (fuel k : nat) (rawTask task plan : string) (w w0 wk w1 w2 : World C) :
  sessionStart w = Ok rawTask w0 ->
  String.eqb (toLowerCase rawTask) "exit" = false ->
  failedAttempts fuel k rawTask w0 = Some (task, wk) ->
  k < 3 ->
  getRefinedPlan task wk = Ok plan w1 ->
  promptWith (AskConfirm plan) (answerConfirm C plan) w1 = Ok false w2 ->
  main fuel w = Ok AbortedByUser w2
  /\ state w2 = state w1
  /\ fs w2 = fs w1
  /\ events w2 = events w1 ++ [EvPrompt (AskConfirm plan)].
Proof.
  intros Hstart Hexit Hfail Hk Hplan Hconf. split.
  - rewrite (main_after_failed_attempts _ _ _ _ _ _ _ Hstart Hexit Hfail Hk).
    unfold tryCatch. cbn [sessionLoop].
    destruct (Nat.ltb_spec k maxAttempts) as [_|Hge];
      [|unfold maxAttempts in Hge; lia].
    unfold bind at 1. rewrite Hplan. unfold bind at 1. now rewrite Hconf.
  - destruct (promptWith_frame (AskConfirm plan) (answerConfirm C plan) w1)
      as (a & wa & Ea & S2 & F2 & _ & E2).
    rewrite Hconf in Ea. injection Ea as _ <-. now repeat split.
Qed.

Lemma declined_plan_runs_nothing_witness :
  main 1 declineWorld = Ok AbortedByUser declineEnd
  /\ state declineEnd = state declinePlanned
  /\ fs declineEnd = fs declinePlanned
  /\ events declineEnd = events declinePlanned ++ [EvPrompt (AskConfirm "rm -rf build")].
Proof.
  apply (declined_plan_runs_nothing 1 1 "build an app" "build an app
Error: f1" "rm -rf build" declineWorld declineStarted declineRetry declinePlanned
           declineEnd).
  - vm_compute. reflexivity.
  - vm_compute. reflexivity.
  - vm_compute. reflexivity.
  - lia.
  - vm_compute. reflexivity.
  - vm_compute. reflexivity.
Defined.

(** X23: a plan that is executed with success ends the run at once with
    the report that all is done, whatever failed before: after [k] failed
    attempts the planning oracle has been asked [k + 1] times, and no
    feedback is asked for after the success. *)
Theorem successful_plan_ends_the_run {C : Collaborators}
  (fuel k : nat) (rawTask task plan : string) (w w0 wk w1 w2 w3 : World C) :
  sessionStart w = Ok rawTask w0 ->
  String.eqb (toLowerCase rawTask) "exit" = false ->
  failedAttempts fuel k rawTask w0 = Some (task, wk) ->
  k < 3 ->
  getRefinedPlan task wk = Ok plan w1 ->
  promptWith (AskConfirm plan) (answerConfirm C plan) w1 = Ok true w2 ->
  executePlan fuel plan task w2 = Ok true w3 ->
  main fuel w = Ok AllDone w3
  /\ planningCalls (events w3) = planningCalls (events w) + k + 1.
Proof.
  intros Hstart Hexit Hfail Hk Hplan Hconf Hexec. split.
  - rewrite (main_after_failed_attempts _ _ _ _ _ _ _ Hstart Hexit Hfail Hk).
    unfold tryCatch. cbn [sessionLoop].
    destruct (Nat.ltb_spec k maxAttempts) as [_|Hge];
      [|unfold maxAttempts in Hge; lia].
    unfold bind at 1. rewrite Hplan. unfold bind at 1. rewrite Hconf.
    cbn [negb]. unfold bind at 1. now rewrite Hexec.
  - apply sessionStart_calls in Hstart. apply failedAttempts_calls in Hfail.
    pose proof (getRefinedPlan_calls task wk) as P1. rewrite Hplan in P1.
    destruct (promptWith_calls (AskConfirm plan) (answerConfirm C plan) w1)
      as (a & wa & Ea & P2). rewrite Hconf in Ea. injection Ea as _ <-.
    pose proof (executePlan_calls fuel plan task w2) as P3. rewrite Hexec in P3.
    cbn [worldOf] in *. lia.
Qed.

Lemma successful_plan_ends_the_run_witness :
  main 1 recoverWorld = Ok AllDone recoverEnd
  /\ planningCalls (events recoverEnd) = planningCalls (events recoverWorld) + 1 + 1.
Proof.
  apply (successful_plan_ends_the_run 1 1 "build an app" "build an app
Error: f1" "mkdir build" recoverWorld recoverStarted recoverRetry recoverPlanned
           recoverConfirmed recoverEnd).
  - vm_compute. reflexivity.
  - vm_compute. reflexivity.
  - vm_compute. reflexivity.
  - lia.
  - vm_compute. reflexivity.
  - vm_compute. reflexivity.
  - vm_compute. reflexivity.
Defined.

(** X24: when the request for a plan fails (the service rejects it, or
    the answer has no text), the error leaves the loop and [main] reports
    it as fatal: the operator is not asked anything more, and the failed
    request is the last thing that happened. *)
Theorem planning_failure_is_fatal {C : Collaborators}
  (fuel k : nat) (rawTask task : string) (err : Error) (w w0 wk w1 : World C) :
  sessionStart w = Ok rawTask w0 ->
  String.eqb (toLowerCase rawTask) "exit" = false ->
  failedAttempts fuel k rawTask w0 = Some (task, wk) ->
  k < 3 ->
  getRefinedPlan task wk = Throw err w1 ->
  main fuel w = Ok (FatalError err) w1
  /\ (exists reason, err = OracleError reason \/ err = NoResponseText)
  /\ events w1
     = events wk
       ++ [EvOracle (RefinePlan (currentDir (state wk)) (projectRoot (state wk))
                       (executedCommands (state wk)) task)]
  /\ state w1 = state wk /\ fs w1 = fs wk.
Proof.
  intros Hstart Hexit Hfail Hk Hplan. split.
  - rewrite (main_after_failed_attempts _ _ _ _ _ _ _ Hstart Hexit Hfail Hk).
    unfold tryCatch. cbn [sessionLoop].
    destruct (Nat.ltb_spec k maxAttempts) as [_|Hge];
      [|unfold maxAttempts in Hge; lia].
    unfold bind at 1. now rewrite Hplan.
  - revert Hplan. unfold getRefinedPlan, bind, getState, generateText.
    destruct (gemini C _ _) as [[reason|[text|]] env']; try discriminate;
      intros [= <- <-]; cbn [events state fs]; repeat split;
      exists reason || exists ""; auto.
Qed.

Lemma planning_failure_is_fatal_witness :
  main 1 planFailWorld = Ok (FatalError (OracleError "429 Too Many Requests")) planFailEnd
  /\ (exists reason, OracleError "429 Too Many Requests" = OracleError reason
                     \/ OracleError "429 Too Many Requests" = NoResponseText)
  /\ events planFailEnd
     = events planFailRetry
       ++ [EvOracle (RefinePlan (currentDir (state planFailRetry))
                       (projectRoot (state planFailRetry))
                       (executedCommands (state planFailRetry)) "build an app
Error: f1")]
  /\ state planFailEnd = state planFailRetry /\ fs planFailEnd = fs planFailRetry.
Proof.
  apply (planning_failure_is_fatal 1 1 "build an app" "build an app
Error: f1" (OracleError "429 Too Many Requests") planFailWorld planFailStarted
           planFailRetry planFailEnd).
  - vm_compute. reflexivity.
  - vm_compute. reflexivity.
  - vm_compute. reflexivity.
  - lia.
  - vm_compute. reflexivity.
Defined.

(** X25: nothing ever sets the project root.  In every run of [main],
    from any world, each request to the planning oracle carries no
    project root (its prompt reads [Project root: unknown]), and the
    project root of the execution state is unset at the end. *)
Theorem project_root_is_never_set {C : Collaborators} (fuel : nat) (w : World C) :
  projectRoot (state (worldOf (main fuel w))) = None
  /\ exists new,
       events (worldOf (main fuel w)) = events w ++ new
       /\ Forall rootUnknown new.
Proof.
  enough (rootUnset w (worldOf (main fuel w))) as [R T]
    by (split; [exact R | exact T]).
  unfold main, tryCatch, mainBody. unfold bind at 1.
  rewrite sessionStart_returns.
  match goal with
  | |- context [Build_World ?s ?f ?c ?e (events w ++ [?ev])] =>
      set (w0 := Build_World s f c e (events w ++ [ev]))
  end.
  assert (T0 : traceExt rootUnknown w w0)
    by (eapply traceExt_one; [reflexivity | exact I]).
  destruct (String.eqb _ "exit"); [cbn [ret worldOf]; now split|].
  destruct (sessionLoop_root fuel maxAttempts 0 (fst (answerTask C (env w))) w0)
    as [R T]; [reflexivity|].
  pose proof (traceExt_trans _ _ _ _ T0 T) as T'.
  destruct (sessionLoop fuel maxAttempts 0 _ w0) as [o w5|e w5|w5];
    cbn [worldOf ret] in *; now split.
Qed.

(** X26: failed attempts lose nothing.  After [k] of them the loop is at
    its turn [attempt + k], the task is the earlier task followed by the
    operator's [k] answers, oldest first, each after [Error: ] on a line
    of its own, and the history of executed commands has only grown. *)
Theorem failed_attempts_accumulate {C : Collaborators}
  (fuel k iterations attempt : nat) (task task' : string) (w w' : World C) :
  failedAttempts fuel k task w = Some (task', w') ->
  attempt + k <= 3 ->
  sessionLoop fuel (k + iterations) attempt task w
  = sessionLoop fuel iterations (attempt + k) task' w'
  /\ exists feedbacks added,
       List.length feedbacks = k
       /\ task' = withFeedback task feedbacks
       /\ executedCommands (state w') = executedCommands (state w) ++ added.
Proof.
  intros Hfail Hle. split.
  - now apply sessionLoop_failed_attempts.
  - clear Hle. revert task w Hfail.
    induction k as [|k IH]; intros task w Hfail; cbn [failedAttempts] in Hfail.
    + injection Hfail as <- <-. exists [], []. now rewrite app_nil_r.
    + destruct (failedAttempt fuel task w) as [[task1 w1]|] eqn:E; [|discriminate].
      apply failedAttempt_grows in E as (feedback & added1 & -> & H1).
      apply IH in Hfail as (feedbacks & added & Hlen & -> & H2).
      exists (feedback :: feedbacks), (added1 ++ added).
      split; [|split].
      * cbn [List.length]. now rewrite Hlen.
      * reflexivity.
      * now rewrite H2, H1, <- app_assoc.
Qed.

Lemma failed_attempts_accumulate_witness :
  sessionLoop 1 (3 + 0) 0 "build an app" (worldOf (sessionStart failingWorld))
  = sessionLoop 1 0 (0 + 3) "build an app
Error: f1
Error: f2
Error: f3" (afterFailedAttempts 1 3 "build an app" (worldOf (sessionStart failingWorld)))
  /\ exists feedbacks added,
       List.length feedbacks = 3
       /\ "build an app
Error: f1
Error: f2
Error: f3" = withFeedback "build an app" feedbacks
       /\ executedCommands
            (state (afterFailedAttempts 1 3 "build an app"
                      (worldOf (sessionStart failingWorld))))
          = executedCommands (state (worldOf (sessionStart failingWorld))) ++ added.
Proof.
  apply (failed_attempts_accumulate 1 3 0 0 "build an app").
  - vm_compute. reflexivity.
  - lia.
Defined.

(** ** A file creation from end to end *)

(** X27: a file creation whose generation request is answered and whose
    first run succeeds does four things, in this order: it asks the oracle
    for the file at the resolved path, writes the answer (trimmed, fences
    stripped) there, runs [node] on that path in the file system that
    holds the new file, and records the command.  These are the only two
    calls that leave the process, and the current directory is not
    touched. *)
Theorem file_creation_pipeline {C : Collaborators}
  (fuel : nat) (cmd filePath task text out err : string) (w : World C)
  (e1 e2 : Env C) (files2 : gmap string FsNode) :
  let fullPath := Path.resolve (processCwd w) (currentDir (state w)) filePath in
  let written :=
    <[fullPath := File (stripCodeFences (trim text))]>
      (List.fold_right (fun p acc => <[p := Dir]> acc) (fs w)
         (directoryChain (Path.dirname fullPath))) in
  arrayIncludes cmd (executedCommands (state w)) = false ->
  dispatch cmd = FileCreation filePath ->
  gemini C (GenerateFile fullPath task) (env w) = (OracleResponse (Some text), e1) ->
  blockedByFile (Path.dirname fullPath) (fs w) = false ->
  isDirectory fullPath (fs w) = false ->
  ~ In fullPath (directoryChain (Path.dirname fullPath)) ->
  spawn C ("node " +:+ fullPath) (processCwd w) written e1
  = (ExecOk out err, files2, e2) ->
  handleCommand (S fuel) cmd task w
  = Ok Continue
      {| state := {| currentDir := currentDir (state w);
                     executedCommands := executedCommands (state w) ++ [cmd];
                     projectRoot := projectRoot (state w) |};
         fs := files2; processCwd := processCwd w; env := e2;
         events := events w
                   ++ [EvOracle (GenerateFile fullPath task);
                       EvExec ("node " +:+ fullPath) None] |}.
Proof.
  intros fullPath written Hnew Hd Hgem Hfree Hnodir Hout Hrun.
  rewrite handleCommand_fresh by exact Hnew. rewrite Hd.
  unfold createFile. cbv beta iota zeta delta [bind getState cwd].
  fold fullPath.
  unfold generateFileContent, bind, generateText. rewrite Hgem.
  cbv beta iota zeta delta [ret].
  rewrite writeCodeToFile_ok by assumption.
  cbn [fs state processCwd env events runFileAndFixIfError].
  unfold bind at 1, execAsync at 1. cbn [fs env processCwd].
  fold written. rewrite Hrun.
  cbv beta iota zeta delta [ret pushExecuted bind getState setState].
  cbn [state fs processCwd env events]. now rewrite <- app_assoc.
Qed.

Lemma file_creation_pipeline_witness :
  handleCommand 1 "touch app.js" "task" revisitWorld = Ok Continue createdWorld.
Proof.
  refine (eq_trans
            (file_creation_pipeline 0 "touch app.js" "app.js" "task"
               "console.log(1);" "" "" revisitWorld (script [ExecOk "" ""] [] "" [] [])
               (script [] [] "" [] []) (fs createdWorld) _ _ _ _ _ _ _) _).
  - vm_compute. reflexivity.
  - vm_compute. reflexivity.
  - vm_compute. reflexivity.
  - vm_compute. reflexivity.
  - vm_compute. reflexivity.
  - vm_compute. intros [H|[H|[]]]; discriminate.
  - vm_compute. reflexivity.
  - vm_compute. reflexivity.
Defined.
